(** * slate-react: the "before" plugin ([plugins/dom/before.js])

    A shallow embedding of [BeforePlugin]: its closure variables, the event
    handlers it returns and [flushQueuedNativeOperations], over a model of
    the DOM objects and the editor facade the handlers read and mutate. *)

From Stdlib Require Import List String Bool Arith NArith Lia Permutation.
Import ListNotations.

Set Implicit Arguments.
Set Warnings "-register-all".

(** ** JavaScript strings

    A JS string is a sequence of UTF-16 code units; [length], [indexOf] and a
    regular expression without the [u] flag all work on code units. *)

Definition code_unit := N.
Definition jsstring := list code_unit.

(** U+FEFF, the zero-width placeholder character. *)
Definition FEFF : code_unit := 65279%N.

(** [s.indexOf('\uFEFF') >= 0] *)
Definition has_zero_width (s : jsstring) : bool := existsb (N.eqb FEFF) s.

(** [s.replace(/[\uFEFF]/g, '')] *)
Definition strip_zero_width (s : jsstring) : jsstring :=
  filter (fun c => negb (N.eqb c FEFF)) s.

Fixpoint jsstring_eqb (s t : jsstring) : bool :=
  match s, t with
  | [], [] => true
  | c :: s', d :: t' => N.eqb c d && jsstring_eqb s' t'
  | _, _ => false
  end.

(** ** The DOM

    Nodes are mutable objects compared by reference ([===]); every node
    carries the reference it is known by. A node that is removed from its
    parent stays alive while a variable holds it, so the model keeps the
    detached subtrees next to the document tree. *)

Module Dom.

Definition ref := nat.

Inductive node :=
| Text (id : ref) (data : jsstring)
| Comment (id : ref) (data : jsstring)
| Element (id : ref) (tagName : string)
          (attributes : list (string * string)) (childNodes : list node).

Definition node_id (n : node) : ref :=
  match n with
  | Text i _ | Comment i _ | Element i _ _ _ => i
  end.

(** [n.nodeType] *)
Definition nodeType (n : node) : nat :=
  match n with
  | Element _ _ _ _ => 1
  | Text _ _ => 3
  | Comment _ _ => 8
  end.

Definition children (n : node) : list node :=
  match n with
  | Element _ _ _ cs => cs
  | _ => []
  end.

(** The data of the [Text] descendants of [n], in tree order. *)
Fixpoint descendant_text (n : node) : jsstring :=
  match n with
  | Text _ d => d
  | Comment _ _ => []
  | Element _ _ _ cs => flat_map descendant_text cs
  end.

(** [n.textContent] (getter). *)
Definition textContent (n : node) : jsstring :=
  match n with
  | Comment _ d => d
  | _ => descendant_text n
  end.

(** The number of children of an element, the length of the data of a
    character-data node (the "length of a node" of the DOM standard). *)
Definition node_length (n : node) : nat :=
  match n with
  | Text _ d | Comment _ d => List.length d
  | Element _ _ _ cs => List.length cs
  end.

Definition attr_names (n : node) : list string :=
  match n with
  | Element _ _ attrs _ => map fst attrs
  | _ => []
  end.

(** [n.hasAttribute(name)] *)
Definition hasAttribute (name : string) (n : node) : bool :=
  existsb (String.eqb name) (attr_names n).

(** The subtree rooted at the node known by [r], searched in tree order. *)
Fixpoint find_in (r : ref) (n : node) : option node :=
  if Nat.eqb (node_id n) r then Some n
  else match n with
       | Element _ _ _ cs =>
           (fix go (l : list node) : option node :=
              match l with
              | [] => None
              | c :: rest =>
                  match find_in r c with
                  | Some x => Some x
                  | None => go rest
                  end
              end) cs
       | _ => None
       end.

(** The proper ancestors of the node known by [r] inside [n], nearest
    first; [None] when [r] does not occur in [n]. *)
Fixpoint ancestors_in (r : ref) (n : node) : option (list node) :=
  if Nat.eqb (node_id n) r then Some []
  else match n with
       | Element _ _ _ cs =>
           (fix go (l : list node) : option (list node) :=
              match l with
              | [] => None
              | c :: rest =>
                  match ancestors_in r c with
                  | Some chain => Some (chain ++ [n])
                  | None => go rest
                  end
              end) cs
       | _ => None
       end.

(** Apply [f] to the node known by [r]. *)
Fixpoint update_in (r : ref) (f : node -> node) (n : node) : node :=
  if Nat.eqb (node_id n) r then f n
  else match n with
       | Element i t a cs => Element i t a (map (update_in r f) cs)
       | _ => n
       end.

(** A selector constant is taken as a simple selector: whether an element
    matches is decided by its own tag name and attributes. *)
Definition selector := string -> list (string * string) -> bool.

Definition matches (sel : selector) (n : node) : bool :=
  match n with
  | Element _ t a _ => sel t a
  | _ => false
  end.

Fixpoint matching_inclusive (sel : selector) (n : node) : list ref :=
  match n with
  | Element i t a cs =>
      (if sel t a then [i] else []) ++ flat_map (matching_inclusive sel) cs
  | _ => []
  end.

(** [n.querySelectorAll(sel)]: the descendants of [n] (not [n] itself) that
    match, in tree order, as a static list. *)
Definition querySelectorAll (sel : selector) (n : node) : list ref :=
  flat_map (matching_inclusive sel) (children n).

(** The window: the document tree, the subtrees detached from it, the next
    unused reference, the native selection and [document.activeElement]. *)
Record t := mk {
  document : node;
  detached : list node;
  next_ref : ref;
  anchor : option (ref * nat);
  activeElement : option ref
}.

Definition trees (d : t) : list node := document d :: detached d.

Fixpoint first_some {A B} (f : A -> option B) (l : list A) : option B :=
  match l with
  | [] => None
  | x :: rest =>
      match f x with
      | Some y => Some y
      | None => first_some f rest
      end
  end.

(** Dereference [r]. *)
Definition find (r : ref) (d : t) : option node :=
  first_some (find_in r) (trees d).

Definition ancestors (r : ref) (d : t) : list node :=
  match first_some (ancestors_in r) (trees d) with
  | Some chain => chain
  | None => []
  end.

(** [n.parentElement] for the node known by [r]. *)
Definition parentElement (r : ref) (d : t) : option node :=
  hd_error (ancestors r d).

(** [e.closest(sel)] for the element known by [r]: the nearest inclusive
    ancestor that matches. *)
Definition closest (sel : selector) (r : ref) (d : t) : option ref :=
  match find r d with
  | Some e =>
      option_map node_id (List.find (matches sel) (e :: ancestors r d))
  | None => None
  end.

(** [a.contains(b)]: [b] is an inclusive descendant of [a]. *)
Definition contains (a b : ref) (d : t) : bool :=
  match find a d with
  | Some na => match find_in b na with Some _ => true | None => false end
  | None => false
  end.

(** Whether the node known by [r] is in the document tree. *)
Definition in_document (r : ref) (d : t) : bool :=
  match find_in r (document d) with Some _ => true | None => false end.

Definition update (r : ref) (f : node -> node) (d : t) : t :=
  mk (update_in r f (document d)) (map (update_in r f) (detached d))
     (next_ref d) (anchor d) (activeElement d).

(** [e.removeAttribute(name)] *)
Definition removeAttribute (name : string) (r : ref) (d : t) : t :=
  update r (fun n =>
    match n with
    | Element i tg a cs =>
        Element i tg (filter (fun kv => negb (String.eqb name (fst kv))) a) cs
    | _ => n
    end) d.

(** Replace the child list of the element known by [r]; [gone] are the
    children that leave the tree and stay alive on their own. *)
Definition set_children (r : ref) (cs gone : list node) (d : t) : t :=
  let d' := update r (fun n =>
    match n with
    | Element i tg a _ => Element i tg a cs
    | _ => n
    end) d in
  mk (document d') (detached d' ++ gone) (next_ref d') (anchor d')
     (activeElement d').

(** [n.textContent = s] (setter): a character-data node gets new data; an
    element loses all its children and, unless [s] is empty, gets one new
    [Text] child. *)
Definition set_textContent (r : ref) (s : jsstring) (d : t) : t :=
  match find r d with
  | Some (Element _ _ _ old) =>
      match s with
      | [] => set_children r [] old d
      | _ =>
          let d' := set_children r [Text (next_ref d) s] old d in
          mk (document d') (detached d') (S (next_ref d)) (anchor d')
             (activeElement d')
      end
  | Some _ =>
      update r (fun n =>
        match n with
        | Text i _ => Text i s
        | Comment i _ => Comment i s
        | _ => n
        end) d
  | None => d
  end.

End Dom.

(** ** The logical document (the editor facade)

    [slate] itself is not part of the plugin; what the handlers use of it is
    modelled here. *)

(** Modelled from the spec: a Logical Document Position is a
    [(path, key, offset)] triple; [path] is what [document.getPath(key)]
    returned, which is [null] for a key the document does not have. *)
Record Point := mkPoint {
  path : option (list nat);
  key : string;
  offset : nat
}.

(** Modelled from the spec: a range is an anchor and a focus position
    ([Range.create({ anchor, focus })]). *)
Record Range := mkRange {
  anchor : Point;
  focus : Point
}.

(** Modelled from the spec: the current selection exposes [isCollapsed],
    [isBlurred] and its anchor key and offset. *)
Record Selection := mkSelection {
  sel_range : Range;
  isFocused : bool
}.

Definition isCollapsed (s : Selection) : bool :=
  String.eqb (key (anchor (sel_range s))) (key (focus (sel_range s)))
  && Nat.eqb (offset (anchor (sel_range s))) (offset (focus (sel_range s))).

Definition isBlurred (s : Selection) : bool := negb (isFocused s).

(** Modelled from the spec: a logical node has a unique stable key and a
    text. Nodes are immutable and a lookup hands out the node object of the
    current document, so [===] on two nodes of one document is equality of
    their contents. *)
Record Node := mkNode {
  node_key : string;
  text : jsstring
}.

Definition node_eqb (a b : Node) : bool :=
  String.eqb (node_key a) (node_key b) && jsstring_eqb (text a) (text b).

(** [a !== b] on values that may be [null]. *)
Definition strict_neq {A} (eqb : A -> A -> bool) (a b : option A) : bool :=
  match a, b with
  | None, None => false
  | Some x, Some y => negb (eqb x y)
  | _, _ => true
  end.

(** Modelled from the spec: the logical document, as the sequence of its
    text-bearing nodes; the node at index [i] has path [[i]]. *)
Definition Document := list Node.

Fixpoint index_of_key (k : string) (doc : Document) : option nat :=
  match doc with
  | [] => None
  | n :: rest =>
      if String.eqb (node_key n) k then Some 0
      else option_map S (index_of_key k rest)
  end.

(** Modelled from the spec: the lookup logical-node-key -> path. *)
Definition getPath (k : string) (doc : Document) : option (list nat) :=
  option_map (fun i => [i]) (index_of_key k doc).

(** Modelled from the spec: the lookup logical-node-key -> node object. *)
Definition getNode (k : string) (doc : Document) : option Node :=
  match index_of_key k doc with
  | Some i => nth_error doc i
  | None => None
  end.

Record Value := mkValue {
  document : Document;
  selection : Selection
}.

(** Modelled from the spec: "replace text in a logical range", for a range
    inside one node: the code units from the anchor offset up to the focus
    offset of the node with the anchor's key give way to [s]. *)
Definition insertTextAtRange (r : Range) (s : jsstring) (v : Value) : Value :=
  mkValue
    (map (fun n =>
            if String.eqb (node_key n) (key (anchor r))
            then mkNode (node_key n)
                        (firstn (offset (anchor r)) (text n) ++ s
                         ++ skipn (offset (focus r)) (text n))
            else n)
         (document v))
    (selection v).

(** Modelled from the spec: "set selection to a given range"; the focus
    state of the selection is kept. *)
Definition select (r : Range) (v : Value) : Value :=
  mkValue (document v) (mkSelection r (isFocused (selection v))).

(** The record stashed in [editor.controller.tmp.nextNativeOperation];
    [slateSpanNode] is [null] when [closest] found nothing. *)
Record NativeOperation := mkNativeOperation {
  op_selection : Selection;
  slateSpanNode : option Dom.ref
}.

(** The editor object: [readOnly], [value], the scratch slot
    [controller.tmp.nextNativeOperation] and the element the surface is
    mounted on. *)
Record Editor := mkEditor {
  readOnly : bool;
  value : Value;
  nextNativeOperation : option NativeOperation;
  el : Dom.ref
}.

(** Modelled from the spec: [editor.findDOMNode([])], the lookup of the
    root editable element of the editor surface. *)
Definition findDOMNode_root (e : Editor) : Dom.ref := el e.

(** ** Events *)

Record Event := mkEvent {
  target : Dom.ref;
  relatedTarget : option Dom.ref;
  nativeEvent : bool;  (* whether [event.nativeEvent] is set *)
  ev_key : string;
  ctrlKey : bool;
  shiftKey : bool
}.

(** ** What the module imports *)

(** [slate-dev-environment] *)
Record Environment := mkEnvironment {
  IS_FIREFOX : bool;
  IS_IE : bool;
  IS_IOS : bool;
  HAS_INPUT_EVENTS_LEVEL_2 : bool
}.

(** [constants/data-attributes] and [constants/selectors], as far as the
    plugin reads them. *)
Record Constants := mkConstants {
  DATA_ATTRS_LENGTH : string;
  DATA_ATTRS_SPACER : string;
  DATA_ATTRS_STRING : string;
  DATA_ATTRS_ZERO_WIDTH : string;
  SELECTORS_KEY : Dom.selector;
  SELECTORS_STRING : Dom.selector;
  SELECTORS_ZERO_WIDTH : Dom.selector
}.

(** [slate-hotkeys]: the classification of a keyboard event. *)
Record HotkeysT := mkHotkeys {
  isBold : Event -> bool;
  isCompose : Event -> bool;
  isDeleteBackward : Event -> bool;
  isDeleteForward : Event -> bool;
  isDeleteLineBackward : Event -> bool;
  isDeleteLineForward : Event -> bool;
  isDeleteWordBackward : Event -> bool;
  isDeleteWordForward : Event -> bool;
  isItalic : Event -> bool;
  isRedo : Event -> bool;
  isSplitBlock : Event -> bool;
  isTransposeCharacter : Event -> bool;
  isUndo : Event -> bool
}.

(** The queries and commands of the editor that stay abstract: the lookups
    DOM element -> logical node and DOM text node + offset -> logical
    point, the void test, and [editor.delete()]. *)
Record Host := mkHost {
  findNode : Dom.t -> Value -> Dom.ref -> option Node;
  findPoint : Dom.t -> Value -> Dom.ref -> nat -> option Point;
  isVoid : Value -> Node -> bool;
  delete : Value -> Value
}.

(** ** The state the handlers share *)

(** The closure variables of [BeforePlugin]. [compositionCount] is a JS
    number that only [++] touches. *)
Record Session := mkSession {
  activeElement : option Dom.ref;
  compositionCount : N;
  isComposing : bool;
  isCopying : bool;
  isDragging : bool;
  isUserActionPerformed : bool
}.

(** The initial values of the closure variables. *)
Definition initial_session : Session :=
  mkSession None 0%N false false false false.

(** [n++] on a JS number holding a non-negative integer: exact below
    [2^53], where the next integer stops being representable and the sum
    rounds back to [2^53]; counting up from 0 never gets past it. *)
Definition js_incr (n : N) : N :=
  if (n <? 2 ^ 53)%N then (n + 1)%N else n.

(** The callbacks handed to [requestAnimationFrame]. *)
Inductive Callback :=
| finish_composition (n : N)
    (* [() => { if (compositionCount > n) return; isComposing = false }] *)
| finish_copying
    (* [() => (isCopying = false)] *).

(** What a handler does to the outside besides changing state. *)
Inductive Action :=
| next                       (* [next()] *)
| preventDefault             (* [event.preventDefault()] *)
| set_dropEffect_move        (* [event.nativeEvent.dataTransfer.dropEffect = 'move'] *)
| el_focus                   (* [el.focus()] *)
| editor_delete              (* [editor.delete()] *)
| editor_insertTextAtRange (r : Range) (s : jsstring)
| editor_select (r : Range).

Record World := mkWorld {
  session : Session;
  editor : Editor;
  dom : Dom.t;
  frame_requests : list Callback;
  log : list Action
}.

Inductive JsError :=
| Error (message : string)
| TypeError        (* a property read on [null] *)
| IndexSizeError.  (* the DOMException of [Selection.collapse] *)

Inductive completion (A : Type) :=
| Normal (a : A)
| Throw (e : JsError).
Arguments Normal {A} a.
Arguments Throw {A} e.

(** The values [flushQueuedNativeOperations] can return. *)
Inductive JsValue :=
| undefined
| boolean (b : bool).

(** [if (v)] *)
Definition truthy (v : JsValue) : bool :=
  match v with
  | undefined => false
  | boolean b => b
  end.

(** ** A state monad in which a [throw] keeps the mutations made so far *)

Definition M (A : Type) := World -> completion A * World.

Definition ret {A} (a : A) : M A := fun w => (Normal a, w).

Definition bind {A B} (m : M A) (k : A -> M B) : M B :=
  fun w =>
    match m w with
    | (Normal a, w') => k a w'
    | (Throw e, w') => (Throw e, w')
    end.

Definition throw {A} (e : JsError) : M A := fun w => (Throw e, w).

Definition get : M World := fun w => (Normal w, w).

Definition modify (f : World -> World) : M unit := fun w => (Normal tt, f w).

Declare Scope js_scope.
Delimit Scope js_scope with js.
Notation "x <- m ;; k" := (bind m (fun x => k))
  (at level 61, m at next level, right associativity) : js_scope.
Notation "m ;; k" := (bind m (fun _ => k))
  (at level 61, right associativity) : js_scope.
Open Scope js_scope.

Definition with_session (f : Session -> Session) : M unit :=
  modify (fun w =>
    mkWorld (f (session w)) (editor w) (dom w) (frame_requests w) (log w)).

Definition with_editor (f : Editor -> Editor) : M unit :=
  modify (fun w =>
    mkWorld (session w) (f (editor w)) (dom w) (frame_requests w) (log w)).

Definition with_dom (f : Dom.t -> Dom.t) : M unit :=
  modify (fun w =>
    mkWorld (session w) (editor w) (f (dom w)) (frame_requests w) (log w)).

(** [window.requestAnimationFrame(cb)] *)
Definition requestAnimationFrame (cb : Callback) : M unit :=
  modify (fun w =>
    mkWorld (session w) (editor w) (dom w) (frame_requests w ++ [cb]) (log w)).

Definition emit (a : Action) : M unit :=
  modify (fun w =>
    mkWorld (session w) (editor w) (dom w) (frame_requests w) (log w ++ [a])).

Definition set_activeElement (a : option Dom.ref) : M unit :=
  with_session (fun s =>
    mkSession a (compositionCount s) (isComposing s) (isCopying s)
              (isDragging s) (isUserActionPerformed s)).

Definition incr_compositionCount : M unit :=
  with_session (fun s =>
    mkSession (activeElement s) (js_incr (compositionCount s)) (isComposing s)
              (isCopying s) (isDragging s) (isUserActionPerformed s)).

Definition set_isComposing (b : bool) : M unit :=
  with_session (fun s =>
    mkSession (activeElement s) (compositionCount s) b (isCopying s)
              (isDragging s) (isUserActionPerformed s)).

Definition set_isCopying (b : bool) : M unit :=
  with_session (fun s =>
    mkSession (activeElement s) (compositionCount s) (isComposing s) b
              (isDragging s) (isUserActionPerformed s)).

Definition set_isDragging (b : bool) : M unit :=
  with_session (fun s =>
    mkSession (activeElement s) (compositionCount s) (isComposing s)
              (isCopying s) b (isUserActionPerformed s)).

Definition set_isUserActionPerformed (b : bool) : M unit :=
  with_session (fun s =>
    mkSession (activeElement s) (compositionCount s) (isComposing s)
              (isCopying s) (isDragging s) b).

Definition set_nextNativeOperation (o : option NativeOperation) : M unit :=
  with_editor (fun e => mkEditor (readOnly e) (value e) o (el e)).

Definition set_value (f : Value -> Value) : M unit :=
  with_editor (fun e =>
    mkEditor (readOnly e) (f (value e)) (nextNativeOperation e) (el e)).

(** [a === b] on element references that may be [null]. *)
Definition ref_eqb (a b : option Dom.ref) : bool :=
  match a, b with
  | None, None => true
  | Some x, Some y => Nat.eqb x y
  | _, _ => false
  end.

(** [r.hasAttribute(name)] through the reference. *)
Definition ref_hasAttribute (name : string) (r : Dom.ref) (d : Dom.t) : bool :=
  match Dom.find r d with
  | Some n => Dom.hasAttribute name n
  | None => false
  end.

(** [window.getSelection().collapse(node, offset)] of the DOM standard: an
    offset beyond the node's length throws, a node outside the document
    leaves the selection alone. *)
Definition collapse (r : Dom.ref) (off : nat) : M unit :=
  w <- get ;;
  match Dom.find r (dom w) with
  | Some n =>
      if Nat.ltb (Dom.node_length n) off then throw IndexSizeError
      else if Dom.in_document r (dom w)
      then with_dom (fun d =>
             Dom.mk (Dom.document d) (Dom.detached d) (Dom.next_ref d)
                    (Some (r, off)) (Dom.activeElement d))
      else ret tt
  | None => ret tt
  end.

(** [element.focus()] of the HTML standard, on an element that can take the
    focus (the root of an editable editor is [contenteditable]): an element
    of the document becomes the document's active element, an element outside
    the document is left alone. The focus event that the browser sends
    afterwards, and what it does to the caret, are not part of the model. *)
Definition HTMLElement_focus (r : Dom.ref) : M unit :=
  emit el_focus ;;
  with_dom (fun d =>
    if Dom.in_document r d
    then Dom.mk (Dom.document d) (Dom.detached d) (Dom.next_ref d)
                (Dom.anchor d) (Some r)
    else d).

(** ** The plugin *)

(** [childNode.nodeType === 1 && childNode.tagName === 'BR'] *)
Definition is_br (n : Dom.node) : bool :=
  match n with
  | Dom.Element _ t _ _ => String.eqb t "BR"
  | _ => false
  end.

(** [for (const childNode of childTextNode.childNodes)
       if (...BR...) childTextNode.removeChild(childNode)]

    [childNodes] is a live list and the iterator walks it by index: when the
    child at index [i] is removed, its next sibling moves to index [i] and
    the iterator, going on to [i + 1], steps over it. The result is the
    children kept and the children removed. *)
Fixpoint remove_br_children (cs : list Dom.node)
  : list Dom.node * list Dom.node :=
  match cs with
  | [] => ([], [])
  | c :: rest =>
      if is_br c then
        match rest with
        | [] => ([], [c])
        | c' :: rest' =>
            let (kept, gone) := remove_br_children rest' in
            (c' :: kept, c :: gone)
        end
      else
        let (kept, gone) := remove_br_children rest in
        (c :: kept, gone)
  end.

(** The same loop, spelled out as the array iterator runs it: [i] is the
    index of the iterator, [cs] the live list, and every round reads the
    length of [cs] anew. [fuel] bounds the rounds; the length of the list at
    the start is enough (lemma [for_of_childNodes_remove_br]). *)
Fixpoint for_of_childNodes (fuel i : nat) (cs gone : list Dom.node)
  : list Dom.node * list Dom.node :=
  match fuel with
  | 0 => (cs, gone)
  | S fuel' =>
      match nth_error cs i with
      | None => (cs, gone)
      | Some c =>
          if is_br c
          then for_of_childNodes fuel' (S i) (firstn i cs ++ skipn (S i) cs)
                                 (gone ++ [c])
          else for_of_childNodes fuel' (S i) cs gone
      end
  end.

Section BeforePlugin.

Variable env : Environment.
Variable K : Constants.
Variable Hotkeys : HotkeysT.
Variable host : Host.

(** The body of the loop over [allChildTextNodes] in
    [flushQueuedNativeOperations], for the element known by [r]. *)
Definition clean_text_run (r : Dom.ref) (d : Dom.t) : Dom.t :=
  match Dom.find r d with
  | Some childTextNode =>
      let isStringNode := Dom.hasAttribute (DATA_ATTRS_STRING K) childTextNode in
      let isZeroWidth := Dom.hasAttribute (DATA_ATTRS_ZERO_WIDTH K) childTextNode in
      if isStringNode || isZeroWidth then
        let hasZeroWidthChars := has_zero_width (Dom.textContent childTextNode) in
        if (isStringNode && hasZeroWidthChars)
           || (isZeroWidth
               && negb (jsstring_eqb (Dom.textContent childTextNode) [FEFF]))
        then
          let (kept, gone) := remove_br_children (Dom.children childTextNode) in
          let d1 := Dom.set_children r kept gone d in
          let d2 :=
            match kept with
            | [only] =>
                Dom.set_textContent (Dom.node_id only)
                  (strip_zero_width (Dom.textContent only)) d1
            | _ =>
                match Dom.find r d1 with
                | Some n =>
                    Dom.set_textContent r
                      (strip_zero_width (Dom.textContent n)) d1
                | None => d1
                end
            end in
          Dom.removeAttribute (DATA_ATTRS_LENGTH K) r
            (Dom.removeAttribute (DATA_ATTRS_ZERO_WIDTH K) r d2)
        else d
      else d
  | None => d
  end.

(** [`${SELECTORS.STRING}, ${SELECTORS.ZERO_WIDTH}`] *)
Definition string_or_zero_width : Dom.selector :=
  fun t a => SELECTORS_STRING K t a || SELECTORS_ZERO_WIDTH K t a.

(** The whole loop, over the static list [querySelectorAll] returned. *)
Definition clean_text_runs (container : Dom.ref) (d : Dom.t) : Dom.t :=
  match Dom.find container d with
  | Some c =>
      fold_left (fun d' r => clean_text_run r d')
                (Dom.querySelectorAll string_or_zero_width c) d
  | None => d
  end.

(** [slateSpanNode.textContent] *)
Definition container_text (container : Dom.ref) (d : Dom.t) : jsstring :=
  match Dom.find container d with
  | Some c => Dom.textContent c
  | None => []
  end.

Definition flushQueuedNativeOperations : M JsValue :=
  w <- get ;;
  match nextNativeOperation (editor w) with
  | None => ret (boolean false)
  | Some nativeOp =>
      set_nextNativeOperation None ;;
      let oldSelection := op_selection nativeOp in
      match Dom.anchor (dom w) with
      | None => throw TypeError (* [textNode.parentElement] on [null] *)
      | Some (textNode, currentOffset) =>
          match Dom.parentElement textNode (dom w) with
          | None => throw TypeError (* [.closest] on [null] *)
          | Some parent =>
              match Dom.closest (SELECTORS_KEY K) (Dom.node_id parent) (dom w) with
              | None => throw (Error "YOWIE WOWIE: could not find slate span")
              | Some currentSlateSpanNode =>
                  if negb (ref_eqb (slateSpanNode nativeOp)
                                   (Some currentSlateSpanNode))
                  then throw (Error "YOWIE WOWIE: slate span node mismatch")
                  else
                    (* from here on [slateSpanNode] is
                       [currentSlateSpanNode] *)
                    let k := key (anchor (sel_range oldSelection)) in
                    let path := getPath k (document (value (editor w))) in
                    let node := getNode k (document (value (editor w))) in
                    let slateNodeFromDomNode :=
                      findNode host (dom w) (value (editor w))
                               currentSlateSpanNode in
                    if strict_neq node_eqb slateNodeFromDomNode node
                    then throw (Error "YOWIE WOWIE: Slate nodes do not match up!")
                    else
                      with_dom (clean_text_runs currentSlateSpanNode) ;;
                      match node with
                      | None => throw TypeError
                          (* the log line reads [slateNodeFromDomNode.text] *)
                      | Some n =>
                          w1 <- get ;;
                          let newTextContent :=
                            strip_zero_width
                              (container_text currentSlateSpanNode (dom w1)) in
                          let range :=
                            mkRange (mkPoint path k 0)
                                    (mkPoint path k (List.length (text n))) in
                          emit (editor_insertTextAtRange range newTextContent) ;;
                          set_value (insertTextAtRange range newTextContent) ;;
                          w2 <- get ;;
                          match Dom.parentElement textNode (dom w2) with
                          | None =>
                              throw (Error "YOWIE WOWIE: text node is no longer in the dom!")
                          | Some _ =>
                              match findPoint host (dom w2) (value (editor w2))
                                              textNode currentOffset with
                              | None =>
                                  throw (Error "YOWIE WOWIE: Unable to translate dom position to slate position!")
                              | Some point =>
                                  emit (editor_select (mkRange point point)) ;;
                                  set_value (select (mkRange point point)) ;;
                                  collapse textNode currentOffset ;;
                                  ret undefined
                              end
                          end
                      end
              end
          end
      end
  end.

Definition onBeforeInput (event : Event) : M unit :=
  w <- get ;;
  if isComposing (session w) then ret tt else
  let isSynthetic := nativeEvent event in
  if readOnly (editor w) then ret tt else
  set_isUserActionPerformed true ;;
  if isSynthetic && HAS_INPUT_EVENTS_LEVEL_2 env then ret tt else
  emit next.

Definition onBlur (event : Event) : M unit :=
  w <- get ;;
  if isCopying (session w) then ret tt else
  if readOnly (editor w) then ret tt else
  if ref_eqb (activeElement (session w)) (Dom.activeElement (dom w))
  then ret tt else
  match relatedTarget event with
  | Some related =>
      let root := findDOMNode_root (editor w) in
      if Nat.eqb related root then ret tt else
      if ref_hasAttribute (DATA_ATTRS_SPACER K) related (dom w) then ret tt else
      let node := findNode host (dom w) (value (editor w)) related in
      if Dom.contains root related (dom w)
         && match node with
            | Some n => negb (isVoid host (value (editor w)) n)
            | None => false
            end
      then ret tt
      else emit next
  | None => emit next
  end.

Definition onCompositionEnd (event : Event) : M unit :=
  w <- get ;;
  let n := compositionCount (session w) in
  set_isUserActionPerformed true ;;
  _ <- flushQueuedNativeOperations ;;
  requestAnimationFrame (finish_composition n) ;;
  emit next.

Definition onClick (event : Event) : M unit :=
  set_isUserActionPerformed true ;;
  emit next.

Definition onCompositionStart (event : Event) : M unit :=
  set_isComposing true ;;
  incr_compositionCount ;;
  w <- get ;;
  let sel := selection (value (editor w)) in
  set_isUserActionPerformed true ;;
  (if negb (isCollapsed sel) then
     emit editor_delete ;;
     set_value (delete host)
   else
     match nextNativeOperation (editor w) with
     | Some _ => throw (Error "YOWIE WOWIE: already have a native op!")
     | None =>
         match Dom.anchor (dom w) with
         | None => throw TypeError (* [anchorNode.parentElement] on [null] *)
         | Some (anchorNode, _) =>
             match Dom.parentElement anchorNode (dom w) with
             | None => throw TypeError (* [.closest] on [null] *)
             | Some parent =>
                 set_nextNativeOperation
                   (Some (mkNativeOperation sel
                            (Dom.closest (SELECTORS_KEY K)
                                         (Dom.node_id parent) (dom w))))
             end
         end
     end) ;;
  emit next.

Definition onCopy (event : Event) : M unit :=
  set_isCopying true ;;
  requestAnimationFrame finish_copying ;;
  emit next.

Definition onCut (event : Event) : M unit :=
  w <- get ;;
  if readOnly (editor w) then ret tt else
  set_isCopying true ;;
  requestAnimationFrame finish_copying ;;
  emit next.

Definition onDragEnd (event : Event) : M unit :=
  set_isDragging false ;;
  emit next.

Definition onDragEnter (event : Event) : M unit := emit next.

Definition onDragExit (event : Event) : M unit := emit next.

Definition onDragLeave (event : Event) : M unit := emit next.

Definition onDragOver (event : Event) : M unit :=
  w <- get ;;
  let node := findNode host (dom w) (value (editor w)) (target event) in
  (if match node with
      | Some n => isVoid host (value (editor w)) n
      | None => true
      end
   then emit preventDefault else ret tt) ;;
  (if IS_IE env then emit preventDefault else ret tt) ;;
  (if negb (isDragging (session w)) then
     set_isDragging true ;;
     if negb (IS_IE env) then
       if nativeEvent event then emit set_dropEffect_move
       else throw TypeError (* [event.nativeEvent.dataTransfer] *)
     else ret tt
   else ret tt) ;;
  emit next.

Definition onDragStart (event : Event) : M unit :=
  set_isDragging true ;;
  emit next.

Definition onDrop (event : Event) : M unit :=
  w <- get ;;
  if readOnly (editor w) then ret tt else
  set_isUserActionPerformed true ;;
  emit preventDefault ;;
  emit next.

Definition onFocus (event : Event) : M unit :=
  w <- get ;;
  if isCopying (session w) then ret tt else
  if readOnly (editor w) then ret tt else
  let root := findDOMNode_root (editor w) in
  set_activeElement (Dom.activeElement (dom w)) ;;
  if IS_FIREFOX env && negb (Nat.eqb (target event) root)
  then HTMLElement_focus root
  else emit next.

Definition onInput (event : Event) : M unit :=
  w <- get ;;
  if isComposing (session w) then ret tt else
  flushed <- flushQueuedNativeOperations ;;
  if truthy flushed then emit next else
  w' <- get ;;
  if isBlurred (selection (value (editor w'))) then ret tt else
  set_isUserActionPerformed true ;;
  emit next.

Definition onKeyDown (event : Event) : M unit :=
  w <- get ;;
  if readOnly (editor w) then ret tt else
  if isComposing (session w) then
    if isCompose Hotkeys event then emit preventDefault else ret tt
  else
  (if negb (IS_IOS env)
      && (isBold Hotkeys event
          || isDeleteBackward Hotkeys event
          || isDeleteForward Hotkeys event
          || isDeleteLineBackward Hotkeys event
          || isDeleteLineForward Hotkeys event
          || isDeleteWordBackward Hotkeys event
          || isDeleteWordForward Hotkeys event
          || isItalic Hotkeys event
          || isRedo Hotkeys event
          || isSplitBlock Hotkeys event
          || isTransposeCharacter Hotkeys event
          || isUndo Hotkeys event)
   then emit preventDefault else ret tt) ;;
  set_isUserActionPerformed true ;;
  emit next.

Definition onPaste (event : Event) : M unit :=
  w <- get ;;
  if readOnly (editor w) then ret tt else
  set_isUserActionPerformed true ;;
  emit preventDefault ;;
  emit next.

Definition onSelect (event : Event) : M unit :=
  w <- get ;;
  if isComposing (session w) then ret tt else
  if isCopying (session w) then ret tt else
  if readOnly (editor w) then ret tt else
  set_activeElement (Dom.activeElement (dom w)) ;;
  set_isUserActionPerformed true ;;
  emit next.

Definition userActionPerformed : M bool :=
  w <- get ;;
  ret (isUserActionPerformed (session w)).

Definition clearUserActionPerformed : M unit :=
  set_isUserActionPerformed false.

(** ** Animation frames *)

Definition run_callback (cb : Callback) : M unit :=
  match cb with
  | finish_composition n =>
      w <- get ;;
      if (n <? compositionCount (session w))%N then ret tt
      else set_isComposing false
  | finish_copying => set_isCopying false
  end.

Fixpoint run_callbacks (cbs : list Callback) : M unit :=
  match cbs with
  | [] => ret tt
  | cb :: rest => run_callback cb ;; run_callbacks rest
  end.

(** The next animation frame: the callbacks requested so far run in the
    order they were requested. *)
Definition animation_frame : M unit :=
  w <- get ;;
  modify (fun w =>
    mkWorld (session w) (editor w) (dom w) [] (log w)) ;;
  run_callbacks (frame_requests w).

(** ** Everything the plugin does *)

Inductive Operation :=
| BeforeInput (e : Event) | Blur (e : Event) | Click (e : Event)
| CompositionEnd (e : Event) | CompositionStart (e : Event)
| Copy (e : Event) | Cut (e : Event)
| DragEnd (e : Event) | DragEnter (e : Event) | DragExit (e : Event)
| DragLeave (e : Event) | DragOver (e : Event) | DragStart (e : Event)
| Drop (e : Event) | Focus (e : Event) | Input (e : Event)
| KeyDown (e : Event) | Paste (e : Event) | Select (e : Event)
| QueryUserActionPerformed | ClearUserActionPerformed
| AnimationFrame.

Definition perform (o : Operation) : M unit :=
  match o with
  | BeforeInput e => onBeforeInput e
  | Blur e => onBlur e
  | Click e => onClick e
  | CompositionEnd e => onCompositionEnd e
  | CompositionStart e => onCompositionStart e
  | Copy e => onCopy e
  | Cut e => onCut e
  | DragEnd e => onDragEnd e
  | DragEnter e => onDragEnter e
  | DragExit e => onDragExit e
  | DragLeave e => onDragLeave e
  | DragOver e => onDragOver e
  | DragStart e => onDragStart e
  | Drop e => onDrop e
  | Focus e => onFocus e
  | Input e => onInput e
  | KeyDown e => onKeyDown e
  | Paste e => onPaste e
  | Select e => onSelect e
  | QueryUserActionPerformed => _ <- userActionPerformed ;; ret tt
  | ClearUserActionPerformed => clearUserActionPerformed
  | AnimationFrame => animation_frame
  end.

(** A run of operations from [w]; a handler that throws leaves the state as
    it was at the throw and the run goes on with the next event. *)
Fixpoint perform_all (os : list Operation) (w : World) : World :=
  match os with
  | [] => w
  | o :: rest => perform_all rest (snd (perform o w))
  end.

End BeforePlugin.

(** ** A concrete editor surface

    One paragraph holding the text node ["k1"], rendered as a keyed span
    with one text run, next to a void node with its spacer, and a button
    outside the editor:
<<
    <body #0>
      <div #1 data-slate-editor>
        <span #2 data-key="k1">
          <span #3 data-slate-leaf>
            <span #4 data-slate-string> #5 text </span></span></span>
        <div #6 data-key="v1" data-slate-void>
          <span #7 data-slate-spacer> #8 "\uFEFF" </span></div>
      </div>
      <button #9> #10 "ok" </button>
    </body>
>> *)

Module Example.

Local Open Scope string_scope.

Definition has (name : string) : Dom.selector :=
  fun _ attrs => existsb (fun kv => String.eqb name (fst kv)) attrs.

Definition constants : Constants :=
  mkConstants "data-slate-length" "data-slate-spacer" "data-slate-string"
              "data-slate-zero-width"
              (has "data-key") (has "data-slate-string")
              (has "data-slate-zero-width").

Definition desktop : Environment := mkEnvironment false false false true.
Definition ios : Environment := mkEnvironment false false true true.

Definition is_key (k : string) (ctrl : bool) (e : Event) : bool :=
  String.eqb (ev_key e) k && Bool.eqb (ctrlKey e) ctrl.

Definition hotkeys : HotkeysT :=
  mkHotkeys
    (is_key "b" true)
    (fun e => is_key "ArrowLeft" false e || is_key "ArrowRight" false e
              || is_key "Backspace" false e || is_key "Enter" false e)
    (is_key "Backspace" false) (is_key "Delete" false)
    (fun _ => false) (fun _ => false)
    (is_key "Backspace" true) (is_key "Delete" true)
    (is_key "i" true) (is_key "y" true) (is_key "Enter" false)
    (fun _ => false) (is_key "z" true).

Definition h : code_unit := 104%N.
Definition i : code_unit := 105%N.

Definition text_run (s : jsstring) : Dom.node :=
  Dom.Element 2 "SPAN" [("data-key", "k1")]
    [Dom.Element 3 "SPAN" [("data-slate-leaf", "true")]
       [Dom.Element 4 "SPAN" [("data-slate-string", "true")]
          [Dom.Text 5 s]]].

Definition page (s : jsstring) : Dom.node :=
  Dom.Element 0 "BODY" []
    [Dom.Element 1 "DIV" [("data-slate-editor", "true")]
       [text_run s;
        Dom.Element 6 "DIV" [("data-key", "v1"); ("data-slate-void", "true")]
          [Dom.Element 7 "SPAN" [("data-slate-spacer", "true")]
             [Dom.Text 8 [FEFF]]]];
     Dom.Element 9 "BUTTON" [] [Dom.Text 10 [111%N; 107%N]]].

(** The caret sits in text node #5 at [off]; the editor root has the focus. *)
Definition window (s : jsstring) (off : nat) : Dom.t :=
  Dom.mk (page s) [] 11 (Some (5, off)) (Some 1).

Definition attr_value (name : string) (n : Dom.node) : option string :=
  match n with
  | Dom.Element _ _ attrs _ =>
      option_map snd
        (List.find (fun kv => String.eqb name (fst kv)) attrs)
  | _ => None
  end.

(** A host whose lookups go through the [data-key] attribute of the
    nearest keyed element; the void node ["v1"] has no text, and [delete]
    takes out a forward selection inside one node. *)
Definition key_of (d : Dom.t) (r : Dom.ref) : option string :=
  match Dom.closest (has "data-key") r d with
  | Some c =>
      match Dom.find c d with
      | Some n => attr_value "data-key" n
      | None => None
      end
  | None => None
  end.

Definition host : Host :=
  mkHost
    (fun d v r =>
       match key_of d r with
       | Some k =>
           if String.eqb k "v1" then Some (mkNode "v1" [])
           else getNode k (document v)
       | None => None
       end)
    (fun d v r off =>
       match Dom.parentElement r d with
       | Some p =>
           match key_of d (Dom.node_id p) with
           | Some k => Some (mkPoint (getPath k (document v)) k off)
           | None => None
           end
       | None => None
       end)
    (fun _ n => String.eqb (node_key n) "v1")
    (fun v =>
       let r := sel_range (selection v) in
       select (mkRange (anchor r) (anchor r)) (insertTextAtRange r [] v)).

Definition caret (off : nat) : Selection :=
  mkSelection (mkRange (mkPoint (Some [0]) "k1" off)
                       (mkPoint (Some [0]) "k1" off)) true.

Definition expanded : Selection :=
  mkSelection (mkRange (mkPoint (Some [0]) "k1" 0)
                       (mkPoint (Some [0]) "k1" 2)) true.

Definition doc : Document := [mkNode "k1" [h; i]].

(** A composition was started with the caret after ["hi"]; the input method
    has since left ["h\uFEFFii"] in the text run, caret at native offset 2. *)
Definition pending : NativeOperation := mkNativeOperation (caret 2) (Some 2).

Definition idle : World :=
  mkWorld initial_session
          (mkEditor false (mkValue doc (caret 2)) None 1)
          (window [h; i] 2) [] [].

(** The plugin at that moment: composing, the operation captured. *)
Definition composing : World :=
  mkWorld (mkSession (Some 1) 1 true false false true)
          (mkEditor false (mkValue doc (caret 2)) (Some pending) 1)
          (window [h; FEFF; i; i] 2) [] [].

(** The native caret has left the editor for the text of the button. *)
Definition caret_in_button : World :=
  mkWorld (session composing) (editor composing)
          (Dom.mk (page [h; i]) [] 11 (Some (10, 1)) (Some 1)) [] [].

(** The operation was captured inside the void node. *)
Definition captured_elsewhere : World :=
  mkWorld (session composing)
          (mkEditor false (mkValue doc (caret 2))
                    (Some (mkNativeOperation (caret 2) (Some 6))) 1)
          (dom composing) [] [].

(** The snapshot points at a key the document no longer has. *)
Definition stale_snapshot : World :=
  mkWorld (session composing)
          (mkEditor false (mkValue doc (caret 2))
                    (Some (mkNativeOperation
                             (mkSelection
                                (mkRange (mkPoint (Some [1]) "gone" 0)
                                         (mkPoint (Some [1]) "gone" 0))
                                true)
                             (Some 2))) 1)
          (dom composing) [] [].

(** Nothing pending, both characters selected. *)
Definition selected : World :=
  mkWorld initial_session
          (mkEditor false (mkValue doc expanded) None 1)
          (window [h; i] 2) [] [].

(** The editor root has just lost the focus to the button. *)
Definition unfocused : World :=
  mkWorld (mkSession (Some 1) 0 false false false false)
          (mkEditor false (mkValue doc (caret 2)) None 1)
          (Dom.mk (page [h; i]) [] 11 (Some (5, 2)) (Some 9)) [] [].

(** A placeholder run the input method typed into, with the line break
    the browser added:
    [<span #4 data-slate-zero-width="z" data-slate-length="0">
       #5 "\uFEFFh" <br #11></span>]. *)
Definition typed_into_placeholder : Dom.t :=
  Dom.mk
    (Dom.Element 2 "SPAN" [("data-key", "k1")]
       [Dom.Element 4 "SPAN"
          [("data-slate-zero-width", "z"); ("data-slate-length", "0")]
          [Dom.Text 5 [FEFF; h]; Dom.Element 11 "BR" [] []]])
    [] 12 (Some (5, 2)) None.

(** A text run with two line breaks in front of its text:
    [<span #4 data-slate-string> <br #11> <br #12> #5 "h\uFEFF" </span>]. *)
Definition two_breaks : Dom.t :=
  Dom.mk
    (Dom.Element 2 "SPAN" [("data-key", "k1")]
       [Dom.Element 4 "SPAN" [("data-slate-string", "true")]
          [Dom.Element 11 "BR" [] []; Dom.Element 12 "BR" [] [];
           Dom.Text 5 [h; FEFF]]])
    [] 13 (Some (5, 1)) None.

Definition typed_into_placeholder_cleaned : Dom.t :=
  Dom.mk
    (Dom.Element 2 "SPAN" [("data-key", "k1")]
       [Dom.Element 4 "SPAN" [] [Dom.Text 5 [h]]])
    [Dom.Element 11 "BR" [] []] 12 (Some (5, 2)) None.

Definition two_breaks_cleaned : Dom.t :=
  Dom.mk
    (Dom.Element 2 "SPAN" [("data-key", "k1")]
       [Dom.Element 4 "SPAN" [("data-slate-string", "true")]
          [Dom.Text 13 [h]]])
    [Dom.Element 11 "BR" [] []; Dom.Element 12 "BR" [] [];
     Dom.Text 5 [h; FEFF]]
    14 (Some (5, 1)) None.

Definition key_event (k : string) (ctrl : bool) : Event :=
  mkEvent 1 None true k ctrl false.

Definition plain_event : Event := key_event "" false.

Definition blur_to (r : Dom.ref) : Event :=
  mkEvent 1 (Some r) true "" false false.

End Example.

(** ** Properties *)

(** The world right after the slot has been cleared. *)
Definition slot_cleared (w : World) : World :=
  mkWorld (session w)
          (mkEditor (readOnly (editor w)) (value (editor w)) None
                    (el (editor w)))
          (dom w) (frame_requests w) (log w).

(** [textNode.parentElement.closest(SELECTORS.KEY)] for the text node of
    the native selection: the logical container element that owns the
    native anchor, if there is one. *)
Definition current_container (K : Constants) (d : Dom.t) : option Dom.ref :=
  match Dom.anchor d with
  | Some (textNode, _) =>
      match Dom.parentElement textNode d with
      | Some parent => Dom.closest (SELECTORS_KEY K) (Dom.node_id parent) d
      | None => None
      end
  | None => None
  end.

(** The key the snapshot of a pending operation points at. *)
Definition snapshot_key (op : NativeOperation) : string :=
  key (anchor (sel_range (op_selection op))).

(** What a call logged: the actions [w'] has on top of [w]. *)
Definition emitted (w w' : World) : list Action :=
  skipn (List.length (log w)) (log w').

(** The world with [isComposing] back to [false]. *)
Definition composition_finished (w : World) : World :=
  mkWorld (mkSession (activeElement (session w))
                     (compositionCount (session w)) false
                     (isCopying (session w)) (isDragging (session w))
                     (isUserActionPerformed (session w)))
          (editor w) (dom w) (frame_requests w) (log w).

(** The fixed set of hotkeys whose native editing behaviour [onKeyDown]
    is after. *)
Definition classified_hotkey (Hotkeys : HotkeysT) (e : Event) : bool :=
  isBold Hotkeys e || isItalic Hotkeys e
  || isDeleteBackward Hotkeys e || isDeleteForward Hotkeys e
  || isDeleteWordBackward Hotkeys e || isDeleteWordForward Hotkeys e
  || isDeleteLineBackward Hotkeys e || isDeleteLineForward Hotkeys e
  || isUndo Hotkeys e || isRedo Hotkeys e
  || isSplitBlock Hotkeys e || isTransposeCharacter Hotkeys e.

(** Some guard of [onBlur] fires: a copy is in flight, the editor is
    read-only, the active element of the window is still the one recorded,
    or the focus goes to the editor root, to a spacer element, or to a
    descendant of the root that maps to a non-void logical node. *)
Definition blur_ignored (K : Constants) (host : Host) (w : World) (e : Event)
  : bool :=
  isCopying (session w)
  || readOnly (editor w)
  || ref_eqb (activeElement (session w)) (Dom.activeElement (dom w))
  || match relatedTarget e with
     | Some related =>
         Nat.eqb related (el (editor w))
         || ref_hasAttribute (DATA_ATTRS_SPACER K) related (dom w)
         || (Dom.contains (el (editor w)) related (dom w)
             && match findNode host (dom w) (value (editor w)) related with
                | Some n => negb (isVoid host (value (editor w)) n)
                | None => false
                end)
     | None => false
     end.

(** The world after one more action has been logged. *)
Definition logged (a : Action) (w : World) : World :=
  mkWorld (session w) (editor w) (dom w) (frame_requests w) (log w ++ [a]).

(** ** Further notions, for the properties of the whole plugin *)

(** The handlers that return at once on a read-only editor. *)
Definition gated_by_readOnly (o : Operation) : bool :=
  match o with
  | BeforeInput _ | Blur _ | Cut _ | Drop _ | Focus _ | KeyDown _ | Paste _
  | Select _ => true
  | _ => false
  end.

(** The handlers that return at once while a composition is going on. *)
Definition gated_by_isComposing (o : Operation) : bool :=
  match o with
  | BeforeInput _ | Input _ | Select _ => true
  | _ => false
  end.

(** The handlers that return at once while a copy is in flight. *)
Definition gated_by_isCopying (o : Operation) : bool :=
  match o with
  | Blur _ | Focus _ | Select _ => true
  | _ => false
  end.

(** The handlers with a [throw] or a property read that can fail. *)
Definition can_throw (o : Operation) : bool :=
  match o with
  | CompositionEnd _ | CompositionStart _ | DragOver _ | Input _ => true
  | _ => false
  end.

(** The handlers that call a command of the editor or write its slot. *)
Definition writes_editor (o : Operation) : bool :=
  match o with
  | CompositionEnd _ | CompositionStart _ | Input _ => true
  | _ => false
  end.

(** The handlers that run the flush, the only code that writes the DOM
    trees. *)
Definition runs_flush (o : Operation) : bool :=
  match o with
  | CompositionEnd _ | Input _ => true
  | _ => false
  end.

(** The handler that calls [focus()] on an element. *)
Definition calls_focus (o : Operation) : bool :=
  match o with
  | Focus _ => true
  | _ => false
  end.

(** The handlers that set [isUserActionPerformed]. *)
Definition marks_user_action (o : Operation) : bool :=
  match o with
  | BeforeInput _ | Click _ | CompositionEnd _ | CompositionStart _ | Drop _
  | Input _ | KeyDown _ | Paste _ | Select _ => true
  | _ => false
  end.

Definition is_CompositionStart (o : Operation) : bool :=
  match o with
  | CompositionStart _ => true
  | _ => false
  end.

(** A frame callback that carries a count the plugin has reached. *)
Definition callback_bounded (count : N) (cb : Callback) : Prop :=
  match cb with
  | finish_composition n => (n <= count)%N
  | finish_copying => True
  end.

(** A frame callback of a composition that a later one has superseded. *)
Definition callback_stale (count : N) (cb : Callback) : Prop :=
  match cb with
  | finish_composition n => (n < count)%N
  | finish_copying => True
  end.

(** No frame callback waiting carries a count from the future. *)
Definition queue_bounded (w : World) : Prop :=
  Forall (callback_bounded (compositionCount (session w))) (frame_requests w).

(** An operation is pending only while composing, and then every callback
    waiting belongs to an earlier composition. *)
Definition composing_while_pending (w : World) : Prop :=
  nextNativeOperation (editor w) <> None ->
  isComposing (session w) = true
  /\ Forall (callback_stale (compositionCount (session w)))
            (frame_requests w).

(** The state right after [BeforePlugin()] has run, on an editor whose slot
    is empty. *)
Definition fresh_plugin (w : World) : Prop :=
  session w = initial_session
  /\ nextNativeOperation (editor w) = None
  /\ frame_requests w = [].

(** How many compositions start in a run. *)
Fixpoint count_starts (os : list Operation) : N :=
  match os with
  | [] => 0%N
  | o :: rest =>
      ((if is_CompositionStart o then 1 else 0) + count_starts rest)%N
  end.


(** The handlers that assign [activeElement]. *)
Definition writes_activeElement (o : Operation) : bool :=
  match o with
  | Focus _ | Select _ => true
  | _ => false
  end.

(** Two line breaks next to each other among the children. *)
Fixpoint has_adjacent_br (cs : list Dom.node) : bool :=
  match cs with
  | c :: rest =>
      match rest with
      | c' :: _ => (is_br c && is_br c') || has_adjacent_br rest
      | [] => false
      end
  | [] => false
  end.

(** The test of the clean-up loop, negated: a text run without U+FEFF, a
    placeholder run that holds exactly U+FEFF, or an element that is
    neither. *)
Definition run_is_clean (K : Constants) (n : Dom.node) : bool :=
  let isStringNode := Dom.hasAttribute (DATA_ATTRS_STRING K) n in
  let isZeroWidth := Dom.hasAttribute (DATA_ATTRS_ZERO_WIDTH K) n in
  negb ((isStringNode || isZeroWidth)
        && ((isStringNode && has_zero_width (Dom.textContent n))
            || (isZeroWidth
                && negb (jsstring_eqb (Dom.textContent n) [FEFF])))).

(** Every text run and placeholder run inside the container is clean. *)
Definition container_is_clean (K : Constants) (c : Dom.ref) (d : Dom.t) : Prop :=
  forall cn r n,
    Dom.find c d = Some cn ->
    In r (Dom.querySelectorAll
            (fun t a => SELECTORS_STRING K t a || SELECTORS_ZERO_WIDTH K t a)
            cn) ->
    Dom.find r d = Some n ->
    run_is_clean K n = true.

(** More states of the concrete editor surface. *)
Module Scenario.

(** The idle editor, read-only. *)
Definition read_only : World :=
  mkWorld initial_session
          (mkEditor true (value (editor Example.idle)) None 1)
          (dom Example.idle) [] [].

(** A whole composition: it starts, it ends, the next frame comes. *)
Definition one_composition : list Operation :=
  [CompositionStart Example.plain_event;
   CompositionEnd Example.plain_event;
   AnimationFrame].

(** The caret in the text of the button, outside every keyed element. *)
Definition caret_outside : World :=
  mkWorld initial_session (editor Example.idle)
          (dom Example.caret_in_button) [] [].

(** The children of a run: a line break, a text, two line breaks in a row
    and a comment. *)
Definition children : list Dom.node :=
  [Dom.Element 20 "BR" [] []; Dom.Text 21 [Example.h];
   Dom.Element 22 "BR" [] []; Dom.Element 23 "BR" [] [];
   Dom.Comment 24 []].

Definition firefox : Environment := mkEnvironment true false false true.

(** The focus has gone to the void node inside the editor. *)
Definition focus_inside : World :=
  mkWorld initial_session (editor Example.idle)
          (Dom.mk (Example.page [Example.h; Example.i]) [] 11
                  (Some (5, 2)) (Some 6))
          [] [].

(** The focus event of that element. *)
Definition focus_on_void : Event := mkEvent 6 None true "" false false.

End Scenario.

Ltac unfold_js :=
  unfold findDOMNode_root, set_value, set_nextNativeOperation,
    set_activeElement,
    incr_compositionCount, set_isComposing, set_isCopying, set_isDragging,
    set_isUserActionPerformed, requestAnimationFrame, HTMLElement_focus,
    emit, with_dom, with_editor, with_session, bind, get, ret, throw,
    modify in *;
  cbn [fst snd session editor dom frame_requests log readOnly value
       nextNativeOperation el activeElement compositionCount isComposing
       isCopying isDragging isUserActionPerformed] in *.

Ltac break_match :=
  match goal with
  | |- context [match ?x with _ => _ end] => destruct x eqn:?
  end.

(** Branch on the tests first, so that a handler applied to a world
    reduces instead of being split as a pair. *)
Ltac break_test :=
  match goal with
  | |- context [if ?b then _ else _] => destruct b eqn:?
  | |- context [match ?x with Some _ => _ | None => _ end] => destruct x eqn:?
  | |- context [let (_, _) := ?p in _] => is_var p; destruct p
  end.

Ltac crunch := repeat (break_test; unfold_js; cbn beta iota).

Lemma strip_zero_width_clean (s : jsstring) :
  has_zero_width (strip_zero_width s) = false.
Proof.
  unfold has_zero_width, strip_zero_width.
  induction s as [|c s IH]; [reflexivity|].
  cbn [filter]. destruct (N.eqb_spec c FEFF) as [->|Hc]; cbn [negb]; [exact IH|].
  cbn [existsb]. rewrite IH, Bool.orb_false_r.
  apply N.eqb_neq. congruence.
Qed.

Lemma strip_zero_width_not_In (s : jsstring) : ~ In FEFF (strip_zero_width s).
Proof.
  unfold strip_zero_width. intros H. apply filter_In in H as [_ H].
  rewrite N.eqb_refl in H. discriminate.
Qed.

Lemma strip_zero_width_idempotent (s : jsstring) :
  strip_zero_width (strip_zero_width s) = strip_zero_width s.
Proof.
  unfold strip_zero_width. induction s as [|c s IH]; [reflexivity|].
  cbn [filter]. destruct (negb (c =? FEFF)%N) eqn:E; [|exact IH].
  cbn [filter]. rewrite E, IH. reflexivity.
Qed.

Lemma jsstring_eqb_eq (s t : jsstring) : jsstring_eqb s t = true <-> s = t.
Proof.
  revert t. induction s as [|c s IH]; intros [|d t]; cbn; split;
    try congruence; intros H.
  - apply andb_prop in H as [H1 H2]. apply N.eqb_eq in H1.
    apply IH in H2. congruence.
  - injection H as -> ->. rewrite N.eqb_refl. apply IH. reflexivity.
Qed.

(** [collapse] touches the native selection and nothing else. *)
Lemma collapse_frame (r : Dom.ref) (off : nat) (w : World) :
  let w' := snd (collapse r off w) in
  session w' = session w /\ editor w' = editor w
  /\ frame_requests w' = frame_requests w /\ log w' = log w
  /\ Dom.document (dom w') = Dom.document (dom w)
  /\ Dom.detached (dom w') = Dom.detached (dom w).
Proof.
  unfold collapse. unfold_js.
  repeat (break_match; unfold_js); cbn; auto 10.
Qed.

Ltac use_collapse_frame :=
  match goal with
  | H : collapse ?r ?o ?W = (_, _) |- _ =>
      let F := fresh "F" in
      pose proof (collapse_frame r o W) as F;
      rewrite H in F; cbn [snd] in F; unfold_js;
      destruct F as (? & ? & ? & ? & ? & ?)
  end.

Ltac rewrite_frame :=
  repeat match goal with
         | H : editor ?w = _ |- context [editor ?w] => rewrite H
         | H : session ?w = _ |- context [session ?w] => rewrite H
         | H : log ?w = _ |- context [log ?w] => rewrite H
         | H : frame_requests ?w = _ |- context [frame_requests ?w] => rewrite H
         end;
  cbn [fst snd session editor dom frame_requests log readOnly value
       nextNativeOperation el].

Lemma node_eqb_eq (a b : Node) : node_eqb a b = true <-> a = b.
Proof.
  destruct a as [ka ta], b as [kb tb]. unfold node_eqb. cbn. split.
  - intros H. apply andb_prop in H as [H1 H2].
    apply String.eqb_eq in H1. apply jsstring_eqb_eq in H2. congruence.
  - intros H. injection H as -> ->. rewrite String.eqb_refl.
    apply jsstring_eqb_eq. reflexivity.
Qed.

Lemma strict_neq_node (a b : option Node) :
  a <> b -> strict_neq node_eqb a b = true.
Proof.
  destruct a as [x|], b as [y|]; cbn; try congruence. intros H.
  destruct (node_eqb x y) eqn:E; [|reflexivity].
  apply node_eqb_eq in E. congruence.
Qed.

Lemma ref_eqb_eq (a b : option Dom.ref) : ref_eqb a b = true <-> a = b.
Proof.
  destruct a as [x|], b as [y|]; cbn; split; try congruence.
  - intros H. apply Nat.eqb_eq in H. congruence.
  - intros H. injection H as ->. apply Nat.eqb_refl.
Qed.

(** The index-driven iteration over the live list computes what
    [remove_br_children] says, and never runs out of rounds. *)
Lemma for_of_childNodes_from
    (fuel : nat) (l pre gone : list Dom.node) :
  List.length l <= fuel ->
  for_of_childNodes fuel (List.length pre) (pre ++ l) gone
  = (pre ++ fst (remove_br_children l), gone ++ snd (remove_br_children l)).
Proof.
  revert l pre gone.
  induction fuel as [|fuel IH]; intros l pre gone Hlen.
  - destruct l; [|cbn in Hlen; lia]. cbn. rewrite !app_nil_r. reflexivity.
  - cbn [for_of_childNodes].
    destruct l as [|c rest].
    + rewrite app_nil_r.
      rewrite (proj2 (nth_error_None pre (List.length pre)) (Nat.le_refl _)).
      cbn. rewrite ?app_nil_r. reflexivity.
    + rewrite nth_error_app2, Nat.sub_diag by lia. cbn [nth_error].
      cbn [remove_br_children]. cbn in Hlen.
      destruct (is_br c).
      * rewrite firstn_app, firstn_all, Nat.sub_diag. cbn [firstn].
        rewrite app_nil_r.
        replace (skipn (S (List.length pre)) (pre ++ c :: rest)) with rest.
        2:{ rewrite skipn_app, skipn_all2 by lia.
            replace (S (List.length pre) - List.length pre) with 1 by lia.
            reflexivity. }
        destruct rest as [|c' rest'].
        { destruct fuel; cbn [for_of_childNodes]; rewrite ?app_nil_r;
            rewrite ?(proj2 (nth_error_None pre (S (List.length pre))))
              by lia; reflexivity. }
        specialize (IH rest' (pre ++ [c']) (gone ++ [c])).
        rewrite length_app in IH. cbn [List.length] in IH.
        rewrite Nat.add_1_r, <- !app_assoc in IH. cbn [app] in IH.
        rewrite IH by (cbn in Hlen; lia).
        destruct (remove_br_children rest') as [kept gone'].
        cbn [fst snd]. rewrite <- ?app_assoc. reflexivity.
      * specialize (IH rest (pre ++ [c]) gone).
        rewrite length_app in IH. cbn [List.length] in IH.
        rewrite Nat.add_1_r, <- !app_assoc in IH. cbn [app] in IH.
        rewrite IH by lia.
        destruct (remove_br_children rest) as [kept gone'].
        cbn [fst snd]. rewrite <- ?app_assoc. reflexivity.
Qed.

Lemma for_of_childNodes_remove_br (cs : list Dom.node) :
  for_of_childNodes (List.length cs) 0 cs [] = remove_br_children cs.
Proof.
  pose proof (for_of_childNodes_from (fuel := List.length cs) cs [] []
                (Nat.le_refl _)) as H.
  cbn [List.length app] in H. rewrite H.
  destruct (remove_br_children cs). reflexivity.
Qed.

(** The state [Example.composing] starts from is the one the handlers
    themselves produce: a selection event and the start of a composition on
    the idle editor leave these closure variables and this slot. *)
Example composing_is_reached :
  let w :=
    perform_all Example.desktop Example.constants Example.hotkeys Example.host
                [Select Example.plain_event;
                 CompositionStart Example.plain_event]
                Example.idle in
  session w = session Example.composing
  /\ editor w = editor Example.composing.
Proof. vm_compute. split; reflexivity. Qed.

(** The clean-up of a placeholder run that was typed into: the line break
    goes, the text loses its U+FEFF in place, the placeholder markers are
    removed. *)
Example clean_typed_into_placeholder :
  clean_text_runs Example.constants 2 Example.typed_into_placeholder
  = Example.typed_into_placeholder_cleaned.
Proof. vm_compute. reflexivity. Qed.

(** With two line breaks in front, the iterator steps over the second one;
    two children are left, so the text of the whole run is replaced and the
    text node the caret was in leaves the tree. *)
Example clean_two_breaks :
  clean_text_runs Example.constants 2 Example.two_breaks
  = Example.two_breaks_cleaned.
Proof. vm_compute. reflexivity. Qed.

Section Properties.

Variable env : Environment.
Variable K : Constants.
Variable Hotkeys : HotkeysT.
Variable host : Host.

Lemma flush_nothing_pending (w : World) :
  nextNativeOperation (editor w) = None ->
  flushQueuedNativeOperations K host w = (Normal (boolean false), w).
Proof.
  intros H. unfold flushQueuedNativeOperations. unfold_js. rewrite H.
  reflexivity.
Qed.

Lemma flush_clears_slot (w : World) :
  nextNativeOperation (editor (snd (flushQueuedNativeOperations K host w)))
  = None.
Proof.
  unfold flushQueuedNativeOperations. unfold_js.
  repeat (break_match; unfold_js; try reflexivity; try assumption);
    use_collapse_frame; rewrite_frame; reflexivity.
Qed.

Lemma flush_never_true (w : World) (v : JsValue) (w' : World) :
  flushQueuedNativeOperations K host w = (Normal v, w') -> truthy v = false.
Proof.
  unfold flushQueuedNativeOperations. unfold_js.
  repeat (break_match; unfold_js; try discriminate);
    intros H; injection H as <- _; reflexivity.
Qed.

(** C2. When a Pending Native Operation is consumed and the merge runs to
    its end, [flushQueuedNativeOperations] falls off the end of its body: the
    value its caller gets is [undefined], which is falsy, not [true]. *)
Theorem flush_completed_returns_undefined
    (w : World) (op : NativeOperation) (v : JsValue) (w' : World) :
  nextNativeOperation (editor w) = Some op ->
  flushQueuedNativeOperations K host w = (Normal v, w') ->
  v = undefined /\ truthy v = false.
Proof.
  intros Hop. unfold flushQueuedNativeOperations. unfold_js. rewrite Hop.
  repeat (break_match; unfold_js; try discriminate);
    intros H; injection H as <- _; split; reflexivity.
Qed.

(** C10. The slot is cleared before any check runs: whatever the outcome of
    a flush that found a Pending Native Operation, fatal error or not, the
    operation is gone afterwards, so the state differs from the one before
    and the next flush reports that there is nothing to flush and changes
    nothing. *)
Theorem flush_consumes_before_validating (w : World) (op : NativeOperation) :
  nextNativeOperation (editor w) = Some op ->
  let w' := snd (flushQueuedNativeOperations K host w) in
  nextNativeOperation (editor w') = None
  /\ w' <> w
  /\ flushQueuedNativeOperations K host w' = (Normal (boolean false), w').
Proof.
  intros Hop w'. pose proof (flush_clears_slot w) as Hc. fold w' in Hc.
  split; [exact Hc|]. split.
  - intros E. rewrite E in Hc. congruence.
  - apply flush_nothing_pending. exact Hc.
Qed.

(** C7. With a Pending Native Operation present, the flush throws when no
    logical container element owns the native anchor, when the container
    found is not the one captured at composition start, and when the
    logical node of the snapshot's anchor key is not the logical node the
    container maps to; in each case nothing but the slot has changed. The
    checks run in this order, each with its own message; without an anchor
    node, or without a parent element of it, the throw is the [TypeError]
    of the property read. *)
Theorem flush_fatal_errors (w : World) (op : NativeOperation) :
  nextNativeOperation (editor w) = Some op ->
  (current_container K (dom w) = None ->
     exists e, flushQueuedNativeOperations K host w
               = (Throw e, slot_cleared w))
  /\ (forall textNode currentOffset parent,
        Dom.anchor (dom w) = Some (textNode, currentOffset) ->
        Dom.parentElement textNode (dom w) = Some parent ->
        current_container K (dom w) = None ->
        flushQueuedNativeOperations K host w
        = (Throw (Error "YOWIE WOWIE: could not find slate span"),
           slot_cleared w))
  /\ (forall c,
        current_container K (dom w) = Some c ->
        slateSpanNode op <> Some c ->
        flushQueuedNativeOperations K host w
        = (Throw (Error "YOWIE WOWIE: slate span node mismatch"),
           slot_cleared w))
  /\ (forall c,
        current_container K (dom w) = Some c ->
        slateSpanNode op = Some c ->
        findNode host (dom w) (value (editor w)) c
        <> getNode (snapshot_key op) (document (value (editor w))) ->
        flushQueuedNativeOperations K host w
        = (Throw (Error "YOWIE WOWIE: Slate nodes do not match up!"),
           slot_cleared w))
  /\ (current_container K (dom w) = None
      \/ slateSpanNode op <> current_container K (dom w)
      \/ (exists c,
            current_container K (dom w) = Some c
            /\ findNode host (dom w) (value (editor w)) c
               <> getNode (snapshot_key op) (document (value (editor w)))) ->
      exists e, flushQueuedNativeOperations K host w
                = (Throw e, slot_cleared w)).
Proof.
  intros Hop.
  assert (H4 :
    (current_container K (dom w) = None ->
       exists e, flushQueuedNativeOperations K host w
                 = (Throw e, slot_cleared w))
    /\ (forall textNode currentOffset parent,
          Dom.anchor (dom w) = Some (textNode, currentOffset) ->
          Dom.parentElement textNode (dom w) = Some parent ->
          current_container K (dom w) = None ->
          flushQueuedNativeOperations K host w
          = (Throw (Error "YOWIE WOWIE: could not find slate span"),
             slot_cleared w))
    /\ (forall c,
          current_container K (dom w) = Some c ->
          slateSpanNode op <> Some c ->
          flushQueuedNativeOperations K host w
          = (Throw (Error "YOWIE WOWIE: slate span node mismatch"),
             slot_cleared w))
    /\ (forall c,
          current_container K (dom w) = Some c ->
          slateSpanNode op = Some c ->
          findNode host (dom w) (value (editor w)) c
          <> getNode (snapshot_key op) (document (value (editor w))) ->
          flushQueuedNativeOperations K host w
          = (Throw (Error "YOWIE WOWIE: Slate nodes do not match up!"),
             slot_cleared w))).
  2:{ destruct H4 as (A & B & C & D).
      split; [exact A|]. split; [exact B|]. split; [exact C|].
      split; [exact D|].
      destruct (current_container K (dom w)) as [c|] eqn:Ec.
      2:{ intros _. apply A. reflexivity. }
      assert (Hdec : slateSpanNode op = Some c \/ slateSpanNode op <> Some c).
      { destruct (ref_eqb (slateSpanNode op) (Some c)) eqn:E.
        - left. apply ref_eqb_eq. exact E.
        - right. intros H. apply ref_eqb_eq in H. congruence. }
      destruct Hdec as [Heq|Hne].
      - intros [H|[H|(c' & Hc' & H)]]; [discriminate|contradiction|].
        injection Hc' as <-. eexists. apply (D c eq_refl Heq H).
      - intros _. eexists. apply (C c eq_refl Hne). }
  unfold current_container, flushQueuedNativeOperations.
  unfold_js. rewrite Hop. repeat split.
  - destruct (Dom.anchor (dom w)) as [[t off]|]; [|eexists; reflexivity].
    destruct (Dom.parentElement t (dom w)); [|eexists; reflexivity].
    intros ->. eexists. reflexivity.
  - intros t off p -> ->. intros ->. reflexivity.
  - intros c. destruct (Dom.anchor (dom w)) as [[t off]|]; [|discriminate].
    destruct (Dom.parentElement t (dom w)); [|discriminate].
    intros -> Hne.
    destruct (ref_eqb (slateSpanNode op) (Some c)) eqn:E; [|reflexivity].
    apply ref_eqb_eq in E. contradiction.
  - intros c. destruct (Dom.anchor (dom w)) as [[t off]|]; [|discriminate].
    destruct (Dom.parentElement t (dom w)); [|discriminate].
    intros -> Hc Hne. rewrite Hc.
    replace (ref_eqb (Some c) (Some c)) with true
      by (symmetry; apply ref_eqb_eq; reflexivity).
    cbn [negb]. fold (snapshot_key op). rewrite (strict_neq_node Hne).
    reflexivity.
Qed.

(** C4. A composition that starts on a non-collapsed selection calls the
    editor's [delete] command and captures nothing: the slot is what it was,
    the value is the one [delete] produced, and the only actions are the
    [delete] call and the continuation. *)
Theorem onCompositionStart_expanded_deletes (w : World) (e : Event) :
  isCollapsed (selection (value (editor w))) = false ->
  let w' := snd (onCompositionStart K host e w) in
  fst (onCompositionStart K host e w) = Normal tt
  /\ emitted w w' = [editor_delete; next]
  /\ value (editor w') = delete host (value (editor w))
  /\ nextNativeOperation (editor w') = nextNativeOperation (editor w)
  /\ isComposing (session w') = true
  /\ dom w' = dom w.
Proof.
  intros Hc. unfold onCompositionStart, emitted. unfold_js. rewrite Hc.
  cbn. repeat split.
  rewrite <- app_assoc, skipn_app, skipn_all, Nat.sub_diag. reflexivity.
Qed.

Lemma run_callbacks_frame (cbs : list Callback) (w : World) :
  let w' := snd (run_callbacks cbs w) in
  editor w' = editor w /\ dom w' = dom w /\ log w' = log w
  /\ (compositionCount (session w') = compositionCount (session w)).
Proof.
  revert w. induction cbs as [|cb cbs IH]; intros w; [cbn; auto|].
  cbn [run_callbacks]. unfold bind.
  destruct (run_callback cb w) as [[[]|err] w1] eqn:E.
  - specialize (IH w1). cbn zeta in *. destruct IH as (-> & -> & -> & ->).
    destruct cb; unfold run_callback in E; unfold_js;
      [destruct (n <? compositionCount (session w))%N|];
      injection E as <-; cbn; auto.
  - destruct cb; unfold run_callback in E; unfold_js;
      [destruct (n <? compositionCount (session w))%N|]; discriminate.
Qed.

(** Every operation but [onCompositionStart] leaves the slot alone or
    empties it. *)
Lemma perform_slot (o : Operation) (w : World) (x : NativeOperation) :
  (forall e, o <> CompositionStart e) ->
  nextNativeOperation (editor (snd (perform env K Hotkeys host o w))) = Some x ->
  nextNativeOperation (editor w) = Some x.
Proof.
  intros Hns.
  destruct o; cbn [perform];
    try (exfalso; eapply Hns; reflexivity);
    try (unfold onBeforeInput, onBlur, onClick, onCopy, onCut, onDragEnd,
           onDragEnter, onDragExit, onDragLeave, onDragOver, onDragStart,
           onDrop, onFocus, onKeyDown, onPaste, onSelect, userActionPerformed,
           clearUserActionPerformed;
         unfold_js; crunch; cbn; tauto).
  - (* onCompositionEnd *)
    unfold onCompositionEnd. unfold_js.
    pose proof (flush_clears_slot
                  (mkWorld (mkSession (activeElement (session w))
                              (compositionCount (session w))
                              (isComposing (session w)) (isCopying (session w))
                              (isDragging (session w)) true)
                           (editor w) (dom w) (frame_requests w) (log w)))
      as Hc.
    break_match. cbn [snd] in Hc. break_match; cbn; rewrite Hc; discriminate.
  - (* onInput *)
    unfold onInput. unfold_js.
    destruct (isComposing (session w)); [cbn; tauto|].
    pose proof (flush_clears_slot w) as Hc.
    break_match. cbn [snd] in Hc.
    repeat (break_match; unfold_js); cbn; rewrite Hc; discriminate.
  - (* an animation frame *)
    unfold animation_frame. unfold_js.
    match goal with
    | |- context [run_callbacks ?c ?W] =>
        destruct (run_callbacks_frame c W) as (-> & _)
    end.
    tauto.
Qed.

(** C3. The slot holds at most one Pending Native Operation.
    [onCompositionStart] on a collapsed selection with the slot taken throws
    and the stored operation stays as it is; no other operation ever puts an
    operation into the slot. *)
Theorem pending_operation_never_overwritten :
  (forall w e op,
     isCollapsed (selection (value (editor w))) = true ->
     nextNativeOperation (editor w) = Some op ->
     fst (onCompositionStart K host e w)
     = Throw (Error "YOWIE WOWIE: already have a native op!")
     /\ nextNativeOperation (editor (snd (onCompositionStart K host e w)))
        = Some op)
  /\ (forall o w,
        (forall e, o <> CompositionStart e) ->
        nextNativeOperation (editor w) = None ->
        nextNativeOperation (editor (snd (perform env K Hotkeys host o w)))
        = None).
Proof.
  split.
  - intros w e op Hc Hop. unfold onCompositionStart. unfold_js.
    rewrite Hc, Hop. cbn. auto.
  - intros o w Hns Hnone.
    destruct (nextNativeOperation
                (editor (snd (perform env K Hotkeys host o w)))) as [x|] eqn:E;
      [|reflexivity].
    apply perform_slot in E; [congruence|exact Hns].
Qed.

Lemma js_incr_le (n : N) : (n <= js_incr n)%N.
Proof. unfold js_incr. destruct (n <? 2 ^ 53)%N; lia. Qed.

Lemma js_incr_lt (n : N) : (n < 2 ^ 53)%N -> js_incr n = (n + 1)%N.
Proof.
  intros H. unfold js_incr. apply N.ltb_lt in H. rewrite H. reflexivity.
Qed.

(** The flush does not touch the closure variables or the frame requests. *)
Lemma flush_frame (w : World) :
  session (snd (flushQueuedNativeOperations K host w)) = session w
  /\ frame_requests (snd (flushQueuedNativeOperations K host w))
     = frame_requests w.
Proof.
  unfold flushQueuedNativeOperations. unfold_js.
  repeat (break_match; unfold_js; try (split; reflexivity));
    use_collapse_frame; rewrite_frame; split; reflexivity.
Qed.

Lemma onCompositionStart_count (e : Event) (w : World) :
  compositionCount (session (snd (onCompositionStart K host e w)))
  = js_incr (compositionCount (session w))
  /\ isComposing (session (snd (onCompositionStart K host e w))) = true.
Proof.
  unfold onCompositionStart. unfold_js. crunch; cbn; auto.
Qed.

Lemma perform_count_mono (o : Operation) (w : World) :
  (compositionCount (session w)
   <= compositionCount (session (snd (perform env K Hotkeys host o w))))%N.
Proof.
  destruct o; cbn [perform];
    try (unfold onBeforeInput, onBlur, onClick, onCopy, onCut, onDragEnd,
           onDragEnter, onDragExit, onDragLeave, onDragOver, onDragStart,
           onDrop, onFocus, onKeyDown, onPaste, onSelect, userActionPerformed,
           clearUserActionPerformed;
         unfold_js; crunch; cbn; lia).
  - (* onCompositionEnd *)
    unfold onCompositionEnd. unfold_js.
    match goal with
    | |- context [flushQueuedNativeOperations K host ?W] =>
        destruct (flush_frame W) as [Hs _];
        destruct (flushQueuedNativeOperations K host W) as [[v|err] w1]
    end; cbn [fst snd session] in *; rewrite Hs; cbn; lia.
  - (* onCompositionStart *)
    destruct (onCompositionStart_count e w) as [-> _]. apply js_incr_le.
  - (* onInput *)
    unfold onInput. unfold_js.
    destruct (isComposing (session w)); [cbn; lia|].
    destruct (flush_frame w) as [Hs _].
    destruct (flushQueuedNativeOperations K host w) as [[v|err] w1];
      cbn [fst snd session] in *; crunch; cbn; rewrite Hs; lia.
  - (* an animation frame *)
    unfold animation_frame. unfold_js.
    match goal with
    | |- context [run_callbacks ?c ?W] =>
        destruct (run_callbacks_frame c W) as (_ & _ & _ & ->)
    end.
    cbn. lia.
Qed.

Lemma perform_all_count_mono (os : list Operation) (w : World) :
  (compositionCount (session w)
   <= compositionCount (session (perform_all env K Hotkeys host os w)))%N.
Proof.
  revert w. induction os as [|o os IH]; intros w; cbn [perform_all]; [lia|].
  etransitivity; [apply (perform_count_mono o w)|apply IH].
Qed.

Lemma perform_all_count_after_start
    (os : list Operation) (e : Event) (w : World) :
  In (CompositionStart e) os ->
  (compositionCount (session w) < 2 ^ 53)%N ->
  (compositionCount (session w)
   < compositionCount (session (perform_all env K Hotkeys host os w)))%N.
Proof.
  revert w. induction os as [|o os IH]; intros w Hin Hlt; [contradiction|].
  cbn [perform_all]. destruct Hin as [->|Hin].
  - cbn [perform].
    pose proof (perform_all_count_mono os
                  (snd (onCompositionStart K host e w))) as Hm.
    destruct (onCompositionStart_count e w) as [Hc _]. rewrite Hc in Hm.
    rewrite (js_incr_lt Hlt) in Hm. lia.
  - pose proof (perform_count_mono o w) as Hm.
    set (w1 := snd (perform env K Hotkeys host o w)) in *.
    destruct (N.ltb_spec (compositionCount (session w1)) (2 ^ 53)) as [H1|H1].
    + specialize (IH w1 Hin H1). lia.
    + pose proof (perform_all_count_mono os w1). lia.
Qed.

(** C5. [onCompositionEnd] requests a frame callback that carries the
    [compositionCount] of that moment. Run at a count that is still the
    captured one, the callback sets [isComposing] to [false]; run at a
    greater count it changes nothing. No operation ever lowers
    [compositionCount], and once an [onCompositionStart] has come in between
    (which sets [isComposing]), the stale callback is a no-op. *)
Theorem finish_composition_guard :
  (forall w e w',
     onCompositionEnd K host e w = (Normal tt, w') ->
     frame_requests w'
     = frame_requests w ++ [finish_composition (compositionCount (session w))]
     /\ compositionCount (session w') = compositionCount (session w))
  /\ (forall n w,
        (compositionCount (session w) <= n)%N ->
        run_callback (finish_composition n) w
        = (Normal tt, composition_finished w))
  /\ (forall n w,
        (n < compositionCount (session w))%N ->
        run_callback (finish_composition n) w = (Normal tt, w))
  /\ (forall o w,
        (compositionCount (session w)
         <= compositionCount (session (snd (perform env K Hotkeys host o w))))%N)
  /\ (forall e w,
        isComposing (session (snd (onCompositionStart K host e w))) = true
        /\ ((compositionCount (session w) < 2 ^ 53)%N ->
            compositionCount (session (snd (onCompositionStart K host e w)))
            = (compositionCount (session w) + 1)%N))
  /\ (forall w e w1 os e2,
        onCompositionEnd K host e w = (Normal tt, w1) ->
        (compositionCount (session w) < 2 ^ 53)%N ->
        In (CompositionStart e2) os ->
        let w2 := perform_all env K Hotkeys host os w1 in
        run_callback (finish_composition (compositionCount (session w))) w2
        = (Normal tt, w2)).
Proof.
  assert (Hend : forall w e w',
     onCompositionEnd K host e w = (Normal tt, w') ->
     frame_requests w'
     = frame_requests w ++ [finish_composition (compositionCount (session w))]
     /\ compositionCount (session w') = compositionCount (session w)).
  { intros w e w'. unfold onCompositionEnd. unfold_js.
    match goal with
    | |- context [flushQueuedNativeOperations K host ?W] =>
        destruct (flush_frame W) as [Hs Hf];
        destruct (flushQueuedNativeOperations K host W) as [[v|err] w1]
    end; cbn [fst snd session frame_requests] in *; [|discriminate].
    intros H. injection H as <-. cbn. rewrite Hs, Hf. auto. }
  assert (Hstale : forall n w,
        (n < compositionCount (session w))%N ->
        run_callback (finish_composition n) w = (Normal tt, w)).
  { intros n w H. unfold run_callback. unfold_js.
    apply N.ltb_lt in H. rewrite H. reflexivity. }
  repeat split.
  - apply (Hend w e w' H).
  - apply (Hend w e w' H).
  - intros n w H. unfold run_callback. unfold_js.
    apply N.ltb_ge in H. rewrite H. reflexivity.
  - exact Hstale.
  - apply perform_count_mono.
  - apply onCompositionStart_count.
  - intros H. destruct (onCompositionStart_count e w) as [-> _].
    apply js_incr_lt. exact H.
  - intros w e w1 os e2 He Hlt Hin w2. apply Hstale.
    destruct (Hend w e w1 He) as [_ Hc]. rewrite <- Hc in *.
    apply (perform_all_count_after_start os e2 w1 Hin Hlt).
Qed.

Lemma emitted_app (w w' : World) (l : list Action) :
  log w' = log w ++ l -> emitted w w' = l.
Proof.
  intros H. unfold emitted. rewrite H, skipn_app, skipn_all, Nat.sub_diag.
  reflexivity.
Qed.

Lemma emitted_nil (w w' : World) : log w' = log w -> emitted w w' = [].
Proof. intros H. apply emitted_app. rewrite app_nil_r. exact H. Qed.

Lemma index_of_key_nth (k : string) (doc : Document) (i : nat) :
  index_of_key k doc = Some i ->
  exists n, nth_error doc i = Some n /\ node_key n = k.
Proof.
  revert i. induction doc as [|n doc IH]; intros i; cbn; [discriminate|].
  destruct (String.eqb_spec (node_key n) k) as [E|E].
  - intros H. injection H as <-. exists n. auto.
  - destruct (index_of_key k doc) as [j|]; cbn; [|discriminate].
    intros H. injection H as <-. apply (IH j eq_refl).
Qed.

Lemma getNode_key (k : string) (doc : Document) (n : Node) :
  getNode k doc = Some n -> node_key n = k.
Proof.
  unfold getNode. destruct (index_of_key k doc) as [i|] eqn:E; [|discriminate].
  destruct (index_of_key_nth k doc E) as (m & Hm & Hk).
  rewrite Hm. intros H. injection H as <-. exact Hk.
Qed.

Lemma index_of_key_map (f : Node -> Node) (k : string) (doc : Document) :
  (forall n, node_key (f n) = node_key n) ->
  index_of_key k (map f doc) = index_of_key k doc.
Proof.
  intros Hf. induction doc as [|n doc IH]; [reflexivity|].
  cbn. rewrite Hf, IH. reflexivity.
Qed.

Lemma getNode_map (f : Node -> Node) (k : string) (doc : Document) :
  (forall n, node_key (f n) = node_key n) ->
  getNode k (map f doc) = option_map f (getNode k doc).
Proof.
  intros Hf. unfold getNode. rewrite (index_of_key_map f k doc Hf).
  destruct (index_of_key k doc) as [i|]; [|reflexivity].
  rewrite nth_error_map. reflexivity.
Qed.

(** Replacing the range from 0 to the node's length leaves exactly the new
    text in the node. *)
Lemma insertTextAtRange_whole_node
    (k : string) (p : option (list nat)) (n : Node) (s : jsstring) (v : Value) :
  getNode k (document v) = Some n ->
  getNode k
    (document (insertTextAtRange
                 (mkRange (mkPoint p k 0) (mkPoint p k (List.length (text n))))
                 s v))
  = Some (mkNode k s).
Proof.
  intros H. unfold insertTextAtRange. cbn [document anchor focus key offset].
  rewrite getNode_map.
  - rewrite H. cbn [option_map]. rewrite (getNode_key _ _ H), String.eqb_refl.
    cbn [firstn]. rewrite skipn_all, app_nil_r. reflexivity.
  - intros m. destruct (String.eqb (node_key m) k); reflexivity.
Qed.

Lemma container_text_frame (c : Dom.ref) (d d' : Dom.t) :
  Dom.document d' = Dom.document d ->
  Dom.detached d' = Dom.detached d ->
  container_text c d' = container_text c d.
Proof.
  intros H1 H2. unfold container_text, Dom.find, Dom.trees.
  rewrite H1, H2. reflexivity.
Qed.

(** C6. Every text a flush writes into the logical document is the text
    content of the container with each U+FEFF removed, written over the
    range from offset 0 to the length of the node the snapshot points at;
    after the write that node holds exactly this text, in which no U+FEFF
    occurs. A flush that runs to its end makes exactly one such write. *)
Theorem flush_writes_clean_text (w : World) (op : NativeOperation) :
  nextNativeOperation (editor w) = Some op ->
  let w' := snd (flushQueuedNativeOperations K host w) in
  let k := snapshot_key op in
  let path := getPath k (document (value (editor w))) in
  (forall r s,
     In (editor_insertTextAtRange r s) (emitted w w') ->
     exists container n,
       slateSpanNode op = Some container
       /\ getNode k (document (value (editor w))) = Some n
       /\ s = strip_zero_width (container_text container (dom w'))
       /\ r = mkRange (mkPoint path k 0)
                      (mkPoint path k (List.length (text n)))
       /\ getNode k (document (value (editor w'))) = Some (mkNode k s)
       /\ ~ In FEFF s)
  /\ (forall v,
        fst (flushQueuedNativeOperations K host w) = Normal v ->
        exists r s sel,
          emitted w w' = [editor_insertTextAtRange r s; editor_select sel]).
Proof.
  intros Hop. cbn zeta. unfold snapshot_key.
  unfold flushQueuedNativeOperations. unfold_js. rewrite Hop.
  repeat (break_match; unfold_js);
    try use_collapse_frame;
    (split;
     [ intros rng txt Hin | intros res Hres; try discriminate ]).
  all: try (rewrite emitted_nil in Hin by reflexivity; contradiction).
  all: try (erewrite emitted_app in Hin
              by (rewrite_frame; cbn [log]; rewrite <- ?app_assoc; reflexivity);
            cbn in Hin;
            repeat match goal with H : _ \/ _ |- _ => destruct H end;
            try discriminate; try contradiction).
  all: try (erewrite emitted_app
              by (rewrite_frame; cbn [log]; rewrite <- ?app_assoc; reflexivity);
            do 3 eexists; reflexivity).
  all: match goal with
       | H : editor_insertTextAtRange _ _ = editor_insertTextAtRange _ _
         |- _ => injection H as <- <-
       end;
       match goal with
       | H : negb (ref_eqb _ _) = false |- _ =>
           apply Bool.negb_false_iff, ref_eqb_eq in H
       end;
       match goal with
       | Hc : slateSpanNode _ = Some ?c, Hn : getNode _ _ = Some ?n |- _ =>
           exists c, n; split; [exact Hc|]; split; [reflexivity|];
           split;
           [ first [ reflexivity
                   | f_equal; symmetry; apply container_text_frame;
                     assumption ]
           | split; [reflexivity|];
             split; [|apply strip_zero_width_not_In];
             rewrite_frame; cbn [select document];
             apply insertTextAtRange_whole_node; exact Hn ]
       end.
Qed.

Lemma logged_neq (a : Action) (w : World) : logged a w <> w.
Proof.
  intros H. apply (f_equal log) in H. cbn in H.
  apply (f_equal (@List.length Action)) in H. rewrite length_app in H.
  cbn in H. lia.
Qed.

Lemma onBlur_spec (w : World) (e : Event) :
  onBlur K host e w
  = (Normal tt, if blur_ignored K host w e then w else logged next w).
Proof.
  unfold onBlur, blur_ignored. unfold_js.
  destruct (isCopying (session w)); [reflexivity|].
  destruct (readOnly (editor w)); [reflexivity|].
  destruct (ref_eqb (activeElement (session w)) (Dom.activeElement (dom w)));
    [reflexivity|].
  cbn [orb]. destruct (relatedTarget e) as [related|]; [|reflexivity].
  destruct (Nat.eqb related (el (editor w))); [reflexivity|].
  destruct (ref_hasAttribute (DATA_ATTRS_SPACER K) related (dom w));
    [reflexivity|].
  cbn [orb].
  destruct (Dom.contains (el (editor w)) related (dom w)
            && match findNode host (dom w) (value (editor w)) related with
               | Some n => negb (isVoid host (value (editor w)) n)
               | None => false
               end); reflexivity.
Qed.

Lemma blur_ignored_false (w : World) (e : Event) :
  blur_ignored K host w e = false <->
  isCopying (session w) = false
  /\ readOnly (editor w) = false
  /\ activeElement (session w) <> Dom.activeElement (dom w)
  /\ (forall related,
        relatedTarget e = Some related ->
        related <> el (editor w)
        /\ ref_hasAttribute (DATA_ATTRS_SPACER K) related (dom w) = false
        /\ ~ (Dom.contains (el (editor w)) related (dom w) = true
              /\ exists n,
                   findNode host (dom w) (value (editor w)) related = Some n
                   /\ isVoid host (value (editor w)) n = false)).
Proof.
  unfold blur_ignored.
  destruct (isCopying (session w));
    [cbn; split; [discriminate|intros (H & _); discriminate]|].
  destruct (readOnly (editor w));
    [cbn; split; [discriminate|intros (_ & H & _); discriminate]|].
  destruct (ref_eqb (activeElement (session w)) (Dom.activeElement (dom w)))
    eqn:Ea.
  { cbn. split; [discriminate|]. intros (_ & _ & H & _).
    apply ref_eqb_eq in Ea. contradiction. }
  assert (Hne : activeElement (session w) <> Dom.activeElement (dom w)).
  { intros H. apply ref_eqb_eq in H. congruence. }
  cbn [orb]. destruct (relatedTarget e) as [related|].
  2:{ split; [|reflexivity]. intros _. repeat split; auto; discriminate. }
  destruct (Nat.eqb_spec related (el (editor w))) as [Er|Er].
  { cbn. split; [discriminate|]. intros (_ & _ & _ & H).
    destruct (H related eq_refl) as (H' & _). contradiction. }
  destruct (ref_hasAttribute (DATA_ATTRS_SPACER K) related (dom w)) eqn:Es.
  { cbn. split; [discriminate|]. intros (_ & _ & _ & H).
    destruct (H related eq_refl) as (_ & H' & _). congruence. }
  cbn [orb]. split.
  - intros H. split; [reflexivity|]. split; [reflexivity|].
    split; [exact Hne|]. intros r' Hr'. injection Hr' as <-.
    split; [exact Er|]. split; [exact Es|]. intros (Hc & n & Hn & Hv).
    rewrite Hc, Hn, Hv in H. discriminate.
  - intros (_ & _ & _ & H). destruct (H related eq_refl) as (_ & _ & Hn).
    destruct (Dom.contains (el (editor w)) related (dom w)); [|reflexivity].
    destruct (findNode host (dom w) (value (editor w)) related) as [n|];
      [|reflexivity].
    destruct (isVoid host (value (editor w)) n) eqn:Ev; [reflexivity|].
    exfalso. apply Hn. split; [reflexivity|]. exists n. auto.
Qed.

(** C8. [onBlur] never throws and either calls the continuation and does
    nothing else or does nothing at all. It calls the continuation exactly
    when no guard fires: no copy in flight, not read-only, the active
    element of the window has changed, and the [relatedTarget], if there is
    one, is not the editor root, not a spacer element and not a descendant
    of the root that maps to a non-void node. A blur right after [onCopy]
    (or [onCut] on an editable editor), before the next animation frame, is
    ignored; a blur whose [relatedTarget] is none of the above and lies
    outside the editor root propagates. *)
Theorem onBlur_propagates_iff (w : World) (e : Event) :
  let result := onBlur K host e w in
  fst result = Normal tt
  /\ (snd result = logged next w \/ snd result = w)
  /\ logged next w <> w
  /\ (snd result = logged next w <->
      isCopying (session w) = false
      /\ readOnly (editor w) = false
      /\ activeElement (session w) <> Dom.activeElement (dom w)
      /\ (forall related,
            relatedTarget e = Some related ->
            related <> el (editor w)
            /\ ref_hasAttribute (DATA_ATTRS_SPACER K) related (dom w) = false
            /\ ~ (Dom.contains (el (editor w)) related (dom w) = true
                  /\ exists n,
                       findNode host (dom w) (value (editor w)) related
                       = Some n
                       /\ isVoid host (value (editor w)) n = false)))
  /\ (forall e0,
        snd (onBlur K host e (snd (onCopy e0 w))) = snd (onCopy e0 w))
  /\ (forall e0,
        readOnly (editor w) = false ->
        snd (onBlur K host e (snd (onCut e0 w))) = snd (onCut e0 w))
  /\ (forall related,
        isCopying (session w) = false ->
        readOnly (editor w) = false ->
        activeElement (session w) <> Dom.activeElement (dom w) ->
        relatedTarget e = Some related ->
        related <> el (editor w) ->
        ref_hasAttribute (DATA_ATTRS_SPACER K) related (dom w) = false ->
        Dom.contains (el (editor w)) related (dom w) = false ->
        snd result = logged next w).
Proof.
  cbn zeta. rewrite onBlur_spec. cbn [fst snd].
  pose proof (blur_ignored_false w e) as Hiff.
  pose proof (@logged_neq next w) as Hneq.
  split; [reflexivity|]. split.
  { destruct (blur_ignored K host w e); auto. }
  split; [exact Hneq|]. split.
  { destruct (blur_ignored K host w e).
    - split; [intros H; symmetry in H; contradiction|].
      intros H. apply Hiff in H. discriminate.
    - split; [intros _; apply Hiff; reflexivity|reflexivity]. }
  split.
  { intros e0. rewrite onBlur_spec. cbn [snd]. unfold onCopy. unfold_js.
    reflexivity. }
  split.
  { intros e0 Hro. rewrite onBlur_spec. cbn [snd]. unfold onCut. unfold_js.
    rewrite Hro. reflexivity. }
  intros related H1 H2 H3 H4 H5 H6 H7.
  replace (blur_ignored K host w e) with false; [reflexivity|].
  symmetry. apply Hiff. split; [exact H1|]. split; [exact H2|].
  split; [exact H3|]. intros r' Hr'. rewrite H4 in Hr'. injection Hr' as <-.
  split; [exact H5|]. split; [exact H6|]. intros (Hc & _). congruence.
Qed.

(** C9, as the code has it. On an editor that is not read-only: while not
    composing, [onKeyDown] calls [preventDefault] exactly when the platform
    is not iOS and the event is classified as one of the fixed hotkeys, and
    then calls the continuation; while composing, it calls [preventDefault]
    exactly for the keys classified by [isCompose] and never calls the
    continuation. *)
Theorem onKeyDown_prevents_default (w : World) (e : Event) :
  readOnly (editor w) = false ->
  let result := onKeyDown env Hotkeys e w in
  fst result = Normal tt
  /\ (isComposing (session w) = false ->
      emitted w (snd result)
      = (if negb (IS_IOS env) && classified_hotkey Hotkeys e
         then [preventDefault] else []) ++ [next])
  /\ (isComposing (session w) = true ->
      emitted w (snd result)
      = if isCompose Hotkeys e then [preventDefault] else []).
Proof.
  intros Hro. cbn zeta. unfold onKeyDown. unfold_js. rewrite Hro.
  assert (Hk : isBold Hotkeys e || isDeleteBackward Hotkeys e
               || isDeleteForward Hotkeys e || isDeleteLineBackward Hotkeys e
               || isDeleteLineForward Hotkeys e
               || isDeleteWordBackward Hotkeys e
               || isDeleteWordForward Hotkeys e || isItalic Hotkeys e
               || isRedo Hotkeys e || isSplitBlock Hotkeys e
               || isTransposeCharacter Hotkeys e || isUndo Hotkeys e
               = classified_hotkey Hotkeys e).
  { unfold classified_hotkey.
    destruct (isBold Hotkeys e), (isDeleteBackward Hotkeys e),
      (isDeleteForward Hotkeys e), (isDeleteLineBackward Hotkeys e),
      (isDeleteLineForward Hotkeys e), (isDeleteWordBackward Hotkeys e),
      (isDeleteWordForward Hotkeys e), (isItalic Hotkeys e),
      (isRedo Hotkeys e), (isSplitBlock Hotkeys e),
      (isTransposeCharacter Hotkeys e), (isUndo Hotkeys e); reflexivity. }
  rewrite Hk.
  destruct (isComposing (session w)).
  - destruct (isCompose Hotkeys e); cbn; repeat split; try discriminate;
      intros _; apply emitted_app; cbn; rewrite ?app_nil_r; reflexivity.
  - destruct (negb (IS_IOS env) && classified_hotkey Hotkeys e); cbn;
      repeat split; try discriminate;
      intros _; apply emitted_app; cbn; rewrite <- ?app_assoc; reflexivity.
Qed.

End Properties.

(** ** The properties on the concrete editor surface *)

Lemma flush_completed_returns_undefined_witness :
  nextNativeOperation (editor Example.composing) = Some Example.pending
  /\ fst (flushQueuedNativeOperations Example.constants Example.host
            Example.composing) = Normal undefined
  /\ truthy undefined = false.
Proof.
  split; [reflexivity|]. split; [vm_compute; reflexivity|].
  refine (proj2 (@flush_completed_returns_undefined Example.constants
                   Example.host Example.composing Example.pending undefined
                   (snd (flushQueuedNativeOperations Example.constants
                           Example.host Example.composing))
                   eq_refl _)).
  vm_compute. reflexivity.
Defined.

Lemma pending_operation_never_overwritten_witness :
  fst (onCompositionStart Example.constants Example.host Example.plain_event
         Example.composing)
  = Throw (Error "YOWIE WOWIE: already have a native op!")
  /\ nextNativeOperation
       (editor (snd (onCompositionStart Example.constants Example.host
                       Example.plain_event Example.composing)))
     = Some Example.pending
  /\ nextNativeOperation
       (editor (snd (perform Example.desktop Example.constants Example.hotkeys
                       Example.host (Input Example.plain_event) Example.idle)))
     = None.
Proof.
  destruct (pending_operation_never_overwritten Example.desktop
              Example.constants Example.hotkeys Example.host) as [H1 H2].
  destruct (H1 Example.composing Example.plain_event Example.pending
               eq_refl eq_refl) as [H3 H4].
  split; [exact H3|]. split; [exact H4|].
  apply H2; [discriminate|vm_compute; reflexivity].
Defined.

Lemma onCompositionStart_expanded_deletes_witness :
  isCollapsed (selection (value (editor Example.selected))) = false
  /\ emitted Example.selected
       (snd (onCompositionStart Example.constants Example.host
               Example.plain_event Example.selected))
     = [editor_delete; next]
  /\ nextNativeOperation
       (editor (snd (onCompositionStart Example.constants Example.host
                       Example.plain_event Example.selected)))
     = None.
Proof.
  split; [reflexivity|].
  destruct (@onCompositionStart_expanded_deletes Example.constants
              Example.host Example.selected Example.plain_event eq_refl)
    as (_ & H1 & _ & H2 & _).
  split; [exact H1|exact H2].
Defined.

Lemma finish_composition_guard_witness :
  let ended :=
    snd (onCompositionEnd Example.constants Example.host Example.plain_event
           Example.composing) in
  let restarted :=
    perform_all Example.desktop Example.constants Example.hotkeys Example.host
                [CompositionStart Example.plain_event] ended in
  frame_requests ended = [finish_composition 1]
  /\ run_callback (finish_composition 1) ended
     = (Normal tt, composition_finished ended)
  /\ run_callback (finish_composition 1) restarted = (Normal tt, restarted)
  /\ isComposing (session restarted) = true.
Proof.
  cbn zeta.
  destruct (finish_composition_guard Example.desktop Example.constants
              Example.hotkeys Example.host)
    as (H1 & H2 & _ & _ & H5 & H6).
  split.
  { apply (H1 Example.composing Example.plain_event).
    vm_compute. reflexivity. }
  split.
  { apply H2. vm_compute. discriminate. }
  split.
  { apply (H6 Example.composing Example.plain_event _
              [CompositionStart Example.plain_event] Example.plain_event).
    - vm_compute. reflexivity.
    - vm_compute. reflexivity.
    - left. reflexivity. }
  apply H5.
Defined.

Lemma flush_writes_clean_text_witness :
  emitted Example.composing
    (snd (flushQueuedNativeOperations Example.constants Example.host
            Example.composing))
  = [editor_insertTextAtRange
       (mkRange (mkPoint (Some [0]) "k1" 0) (mkPoint (Some [0]) "k1" 2))
       [Example.h; Example.i; Example.i];
     editor_select
       (mkRange (mkPoint (Some [0]) "k1" 2) (mkPoint (Some [0]) "k1" 2))]
  /\ getNode "k1"
       (document (value (editor
          (snd (flushQueuedNativeOperations Example.constants Example.host
                  Example.composing)))))
     = Some (mkNode "k1" [Example.h; Example.i; Example.i])
  /\ ~ In FEFF [Example.h; Example.i; Example.i].
Proof.
  split; [vm_compute; reflexivity|].
  destruct (@flush_writes_clean_text Example.constants Example.host
              Example.composing Example.pending eq_refl) as [H _].
  destruct (H (mkRange (mkPoint (Some [0]) "k1" 0)
                       (mkPoint (Some [0]) "k1" 2))
              [Example.h; Example.i; Example.i])
    as (c & n & _ & _ & _ & _ & H1 & H2).
  { vm_compute. left. reflexivity. }
  split; [exact H1|exact H2].
Defined.

Lemma flush_fatal_errors_witness :
  fst (flushQueuedNativeOperations Example.constants Example.host
         Example.caret_in_button)
  = Throw (Error "YOWIE WOWIE: could not find slate span")
  /\ fst (flushQueuedNativeOperations Example.constants Example.host
            Example.captured_elsewhere)
     = Throw (Error "YOWIE WOWIE: slate span node mismatch")
  /\ fst (flushQueuedNativeOperations Example.constants Example.host
            Example.stale_snapshot)
     = Throw (Error "YOWIE WOWIE: Slate nodes do not match up!").
Proof.
  split; [|split].
  - destruct (@flush_fatal_errors Example.constants Example.host
                Example.caret_in_button Example.pending eq_refl)
      as (_ & H & _).
    rewrite (H 10 1 (Dom.Element 9 "BUTTON" [] [Dom.Text 10 [111%N; 107%N]]));
      vm_compute; reflexivity.
  - destruct (@flush_fatal_errors Example.constants Example.host
                Example.captured_elsewhere
                (mkNativeOperation (Example.caret 2) (Some 6)) eq_refl)
      as (_ & _ & H & _).
    rewrite (H 2);
      [reflexivity|vm_compute; reflexivity|vm_compute; discriminate].
  - destruct (@flush_fatal_errors Example.constants Example.host
                Example.stale_snapshot _ eq_refl)
      as (_ & _ & _ & H & _).
    rewrite (H 2);
      [reflexivity|vm_compute; reflexivity|vm_compute; reflexivity
      |vm_compute; discriminate].
Defined.

Lemma onBlur_propagates_iff_witness :
  snd (onBlur Example.constants Example.host (Example.blur_to 7)
         Example.unfocused) = Example.unfocused
  /\ snd (onBlur Example.constants Example.host (Example.blur_to 9)
            Example.unfocused) = logged next Example.unfocused
  /\ snd (onBlur Example.constants Example.host (Example.blur_to 9)
            (snd (onCopy Example.plain_event Example.unfocused)))
     = snd (onCopy Example.plain_event Example.unfocused).
Proof.
  split; [|split].
  - destruct (onBlur_propagates_iff Example.constants Example.host
                Example.unfocused (Example.blur_to 7))
      as (_ & [H|H] & _ & Hiff & _); [|exact H].
    apply Hiff in H. destruct H as (_ & _ & _ & H).
    destruct (H 7 eq_refl) as (_ & H' & _). vm_compute in H'.
    discriminate H'.
  - destruct (onBlur_propagates_iff Example.constants Example.host
                Example.unfocused (Example.blur_to 9))
      as (_ & _ & _ & _ & _ & _ & H).
    apply (H 9); vm_compute; try reflexivity; discriminate.
  - destruct (onBlur_propagates_iff Example.constants Example.host
                Example.unfocused (Example.blur_to 9))
      as (_ & _ & _ & _ & H & _).
    apply H.
Defined.

(** C9, as stated, fails: on iOS a key-down classified as the bold hotkey,
    on an editable editor that is not composing, gets no [preventDefault]. *)
Lemma onKeyDown_ios_counterexample :
  readOnly (editor Example.idle) = false
  /\ isComposing (session Example.idle) = false
  /\ isBold Example.hotkeys (Example.key_event "b" true) = true
  /\ log Example.idle = []
  /\ ~ In preventDefault
       (log (snd (onKeyDown Example.ios Example.hotkeys
                    (Example.key_event "b" true) Example.idle))).
Proof.
  repeat split; try (vm_compute; reflexivity).
  vm_compute. intros [H|[]]. discriminate H.
Qed.

Lemma onKeyDown_prevents_default_witness :
  emitted Example.idle
    (snd (onKeyDown Example.desktop Example.hotkeys
            (Example.key_event "b" true) Example.idle))
  = [preventDefault; next]
  /\ emitted Example.idle
       (snd (onKeyDown Example.ios Example.hotkeys
               (Example.key_event "b" true) Example.idle))
     = [next]
  /\ emitted Example.composing
       (snd (onKeyDown Example.desktop Example.hotkeys
               (Example.key_event "ArrowLeft" false) Example.composing))
     = [preventDefault].
Proof.
  split; [|split].
  - destruct (@onKeyDown_prevents_default Example.desktop Example.hotkeys
                Example.idle (Example.key_event "b" true) eq_refl)
      as (_ & H & _).
    apply H. reflexivity.
  - destruct (@onKeyDown_prevents_default Example.ios Example.hotkeys
                Example.idle (Example.key_event "b" true) eq_refl)
      as (_ & H & _).
    apply H. reflexivity.
  - destruct (@onKeyDown_prevents_default Example.desktop Example.hotkeys
                Example.composing (Example.key_event "ArrowLeft" false)
                eq_refl)
      as (_ & _ & H).
    apply H. reflexivity.
Defined.

Lemma flush_consumes_before_validating_witness :
  fst (flushQueuedNativeOperations Example.constants Example.host
         Example.captured_elsewhere)
  = Throw (Error "YOWIE WOWIE: slate span node mismatch")
  /\ nextNativeOperation
       (editor (snd (flushQueuedNativeOperations Example.constants
                       Example.host Example.captured_elsewhere)))
     = None
  /\ fst (flushQueuedNativeOperations Example.constants Example.host
            (snd (flushQueuedNativeOperations Example.constants Example.host
                    Example.captured_elsewhere)))
     = Normal (boolean false).
Proof.
  split; [vm_compute; reflexivity|].
  destruct (@flush_consumes_before_validating Example.constants Example.host
              Example.captured_elsewhere
              (mkNativeOperation (Example.caret 2) (Some 6)) eq_refl)
    as (H1 & _ & H2).
  split; [exact H1|]. rewrite H2. reflexivity.
Defined.

(** ** Properties of the plugin as a whole *)

(** What the flush logs are the two editor commands it calls. *)
Lemma flush_log (K : Constants) (host : Host) (w : World) :
  exists l,
    log (snd (flushQueuedNativeOperations K host w)) = log w ++ l
    /\ forall a, In a l ->
         (exists r s, a = editor_insertTextAtRange r s)
         \/ (exists r, a = editor_select r).
Proof.
  unfold flushQueuedNativeOperations. unfold_js.
  repeat (break_match; unfold_js);
    try use_collapse_frame; rewrite_frame; cbn [log];
    rewrite <- ?app_assoc; cbn [app];
    try (exists []; rewrite app_nil_r; split; [reflexivity|];
         intros act []);
    (eexists; split; [reflexivity|]);
    intros act Hin; cbn in Hin;
    repeat match goal with H : _ \/ _ |- _ => destruct H end;
    try contradiction; subst act; eauto.
Qed.

(** The flush leaves [readOnly] and the root element of the editor alone. *)
Lemma flush_editor_static (K : Constants) (host : Host) (w : World) :
  readOnly (editor (snd (flushQueuedNativeOperations K host w)))
  = readOnly (editor w)
  /\ el (editor (snd (flushQueuedNativeOperations K host w))) = el (editor w).
Proof.
  unfold flushQueuedNativeOperations. unfold_js.
  repeat (break_match; unfold_js; try (split; reflexivity));
    use_collapse_frame; rewrite_frame; split; reflexivity.
Qed.

Lemma run_callback_normal (cb : Callback) (w : World) :
  fst (run_callback cb w) = Normal tt.
Proof.
  destruct cb; unfold run_callback; unfold_js; crunch; reflexivity.
Qed.

Lemma run_callbacks_normal (cbs : list Callback) (w : World) :
  fst (run_callbacks cbs w) = Normal tt.
Proof.
  revert w. induction cbs as [|cb cbs IH]; intros w; [reflexivity|].
  cbn [run_callbacks]. unfold bind.
  pose proof (run_callback_normal cb w) as H.
  destruct (run_callback cb w) as [[[]|err] w1]; cbn in H; [apply IH|].
  discriminate.
Qed.

(** The frame callbacks touch [isComposing] and [isCopying] only. *)
Lemma run_callbacks_session (cbs : list Callback) (w : World) :
  let w' := snd (run_callbacks cbs w) in
  activeElement (session w') = activeElement (session w)
  /\ isDragging (session w') = isDragging (session w)
  /\ isUserActionPerformed (session w') = isUserActionPerformed (session w)
  /\ frame_requests w' = frame_requests w.
Proof.
  revert w. induction cbs as [|cb cbs IH]; intros w; [cbn; auto|].
  cbn [run_callbacks]. unfold bind.
  pose proof (run_callback_normal cb w) as Hn.
  destruct (run_callback cb w) as [[[]|err] w1] eqn:E; [|discriminate Hn].
  specialize (IH w1). cbn zeta in *. destruct IH as (-> & -> & -> & ->).
  destruct cb; unfold run_callback in E; unfold_js;
    [destruct (n <? compositionCount (session w))%N|];
    injection E as <-; cbn; auto.
Qed.

Lemma run_callbacks_isCopying (cbs : list Callback) (w : World) :
  In finish_copying cbs ->
  isCopying (session (snd (run_callbacks cbs w))) = false.
Proof.
  assert (Hkeep : forall cbs w,
            isCopying (session w) = false ->
            isCopying (session (snd (run_callbacks cbs w))) = false).
  { clear. induction cbs as [|cb cbs IH]; intros w Hw; [exact Hw|].
    cbn [run_callbacks]. unfold bind.
    pose proof (run_callback_normal cb w) as Hn.
    destruct (run_callback cb w) as [[[]|err] w1] eqn:E; [|discriminate Hn].
    apply IH.
    destruct cb; unfold run_callback in E; unfold_js;
      [destruct (n <? compositionCount (session w))%N|];
      injection E as <-; cbn; auto. }
  revert w. induction cbs as [|cb cbs IH]; intros w Hin; [contradiction|].
  cbn [run_callbacks]. unfold bind.
  pose proof (run_callback_normal cb w) as Hn.
  destruct (run_callback cb w) as [[[]|err] w1] eqn:E; [|discriminate Hn].
  destruct Hin as [->|Hin]; [|apply IH; exact Hin].
  apply Hkeep. unfold run_callback in E. unfold_js. injection E as <-.
  reflexivity.
Qed.




Section Coverage.

Variable env : Environment.
Variable K : Constants.
Variable Hotkeys : HotkeysT.
Variable host : Host.

Ltac unfold_handlers :=
  unfold onBeforeInput, onBlur, onClick, onCopy, onCut, onDragEnd,
    onDragEnter, onDragExit, onDragLeave, onDragOver, onDragStart, onDrop,
    onFocus, onKeyDown, onPaste, onSelect, onInput, onCompositionEnd,
    onCompositionStart, userActionPerformed, clearUserActionPerformed,
    animation_frame.

(** X1. On a read-only editor the handlers of before-input, blur, cut,
    drop, focus, key-down, paste and select do nothing at all: no state
    changes, no [preventDefault], no continuation. *)
Theorem readOnly_handlers_do_nothing (o : Operation) (w : World) :
  gated_by_readOnly o = true ->
  readOnly (editor w) = true ->
  perform env K Hotkeys host o w = (Normal tt, w).
Proof.
  intros Ho Hro. destruct o; try discriminate Ho; cbn [perform];
    unfold_handlers; unfold_js; rewrite Hro; crunch; reflexivity.
Qed.

(** X2. While a composition is going on, before-input, input and select
    events are swallowed whole (nothing changes, nothing is called), and a
    key-down never reaches the continuation and changes nothing but the
    event's default. *)
Theorem composing_swallows_events (o : Operation) (w : World) :
  isComposing (session w) = true ->
  (gated_by_isComposing o = true ->
   perform env K Hotkeys host o w = (Normal tt, w))
  /\ (forall e,
        o = KeyDown e ->
        let w' := snd (perform env K Hotkeys host o w) in
        ~ In next (emitted w w')
        /\ session w' = session w /\ editor w' = editor w
        /\ dom w' = dom w /\ frame_requests w' = frame_requests w).
Proof.
  intros Hc. split.
  - intros Ho. destruct o; try discriminate Ho; cbn [perform];
      unfold_handlers; unfold_js; rewrite Hc; reflexivity.
  - intros e ->. cbn [perform]. unfold onKeyDown. unfold_js. rewrite Hc.
    crunch; cbn; repeat split; auto.
    + unfold emitted. cbn [log]. rewrite skipn_all. intros [].
    + erewrite emitted_app by (cbn; reflexivity). intros [H|[]]. discriminate.
    + unfold emitted. cbn [log]. rewrite skipn_all. intros [].
Qed.

(** X3. The copy guard. [onCopy], and [onCut] on an editable editor, raise
    [isCopying]; while it is up, blur, focus and select events do nothing at
    all; the next animation frame takes it down again and leaves no frame
    callback behind. *)
Theorem copy_guard_lifecycle (w : World) :
  (forall o,
     gated_by_isCopying o = true ->
     isCopying (session w) = true ->
     perform env K Hotkeys host o w = (Normal tt, w))
  /\ (forall e, isCopying (session (snd (onCopy e w))) = true)
  /\ (forall e,
        readOnly (editor w) = false ->
        isCopying (session (snd (onCut e w))) = true)
  /\ (forall e,
        let w' := snd (animation_frame (snd (onCopy e w))) in
        isCopying (session w') = false /\ frame_requests w' = []).
Proof.
  split; [|split; [|split]].
  - intros o Ho Hc. destruct o; try discriminate Ho; cbn [perform];
      unfold_handlers; unfold_js; rewrite Hc; crunch; reflexivity.
  - intros e. reflexivity.
  - intros e Hro. unfold onCut. unfold_js. rewrite Hro. reflexivity.
  - intros e. cbn zeta. unfold animation_frame, onCopy. unfold_js. split.
    + apply run_callbacks_isCopying. apply in_or_app. right. left.
      reflexivity.
    + match goal with
      | |- context [run_callbacks ?c ?W] =>
          destruct (run_callbacks_session c W) as (_ & _ & _ & ->)
      end.
      reflexivity.
Qed.

(** X4. Only [onCompositionStart], [onCompositionEnd], [onInput] and
    [onDragOver] can end in an exception; every other handler, both
    commands and the frame callbacks always return. *)
Theorem other_handlers_never_throw (o : Operation) (w : World) :
  can_throw o = false ->
  fst (perform env K Hotkeys host o w) = Normal tt.
Proof.
  intros Ho. destruct o; try discriminate Ho; cbn [perform];
    try (unfold_handlers; unfold_js; crunch; reflexivity).
  unfold animation_frame. unfold_js. apply run_callbacks_normal.
Qed.

(** X5. The editor is written by [onCompositionStart], [onCompositionEnd]
    and [onInput] only. The DOM trees are written by the two handlers that
    run the flush only, and apart from these two and [onFocus] no operation
    writes the DOM at all. [onFocus] writes it through [el.focus()], called
    exactly when the handler runs on Firefox for a target other than the
    root: the root becomes the active element; without that call it leaves
    the DOM as it is. No operation ever changes [readOnly] or the root
    element. *)
Theorem editor_and_dom_untouched (o : Operation) (w : World) :
  let w' := snd (perform env K Hotkeys host o w) in
  (writes_editor o = false -> editor w' = editor w)
  /\ (runs_flush o = false ->
      Dom.document (dom w') = Dom.document (dom w)
      /\ Dom.detached (dom w') = Dom.detached (dom w)
      /\ Dom.next_ref (dom w') = Dom.next_ref (dom w))
  /\ (runs_flush o = false -> calls_focus o = false -> dom w' = dom w)
  /\ (forall e,
        o = Focus e ->
        (In el_focus (emitted w w') <->
         isCopying (session w) = false /\ readOnly (editor w) = false
         /\ IS_FIREFOX env = true /\ target e <> el (editor w))
        /\ (In el_focus (emitted w w') ->
            Dom.in_document (el (editor w)) (dom w) = true ->
            Dom.activeElement (dom w') = Some (el (editor w)))
        /\ (~ In el_focus (emitted w w') -> dom w' = dom w))
  /\ readOnly (editor w') = readOnly (editor w)
  /\ el (editor w') = el (editor w).
Proof.
  cbn zeta.
  destruct o; cbn [perform writes_editor runs_flush calls_focus];
    try (unfold_handlers; unfold_js; crunch; cbn;
         (split; [intros; try discriminate; first [reflexivity | congruence]|]);
         (split; [intros; try discriminate; repeat split;
                  first [reflexivity | congruence]|]);
         (split; [intros; try discriminate; reflexivity|]);
         (split; [intros ? Hop; discriminate Hop|]);
         split; first [reflexivity | assumption | congruence]).
  - (* onCompositionEnd *)
    unfold onCompositionEnd. unfold_js.
    match goal with
    | |- context [flushQueuedNativeOperations K host ?W] =>
        destruct (flush_editor_static K host W) as [H1 H2];
        destruct (flushQueuedNativeOperations K host W) as [[v|err] w1]
    end; cbn in *;
      (split; [intros; discriminate|]);
      (split; [intros; discriminate|]);
      (split; [intros; discriminate|]);
      (split; [intros ? Hop; discriminate Hop|]);
      split; assumption.
  - (* onFocus *)
    unfold onFocus. unfold_js.
    split; [intros _|split; [intros _|split; [intros _ Hf; discriminate Hf|]]].
    + crunch; reflexivity.
    + crunch; cbn; repeat split; reflexivity.
    + split;
        [|crunch; split; first [reflexivity | assumption | congruence]].
      intros e' He. injection He as <-.
      assert (Hnone :
        forall (A : Prop) (B : Prop) (d : Dom.t),
          ~ A -> ~ B ->
          (A <-> B)
          /\ (A -> Dom.in_document (el (editor w)) (dom w) = true ->
              Dom.activeElement d = Some (el (editor w)))
          /\ (~ A -> d = d)).
      { intros A B d HA HB. split; [split; intros H; contradiction|].
        split; [intros H; contradiction|reflexivity]. }
      destruct (isCopying (session w)) eqn:Hcp.
      { unfold emitted; cbn [fst snd log dom]. rewrite skipn_all.
        apply Hnone; [intros []|intros (Hx & _); discriminate Hx]. }
      destruct (readOnly (editor w)) eqn:Hro.
      { unfold emitted; cbn [fst snd log dom]. rewrite skipn_all.
        apply Hnone; [intros []|intros (_ & Hx & _); discriminate Hx]. }
      destruct (IS_FIREFOX env) eqn:Hff; cbn [andb].
      * destruct (Nat.eqb_spec (target e) (el (editor w))) as [Heq|Hne];
          cbn [negb]; unfold_js;
          unfold emitted; cbn [fst snd log dom];
          rewrite skipn_app, skipn_all, Nat.sub_diag; cbn [skipn app].
        -- apply Hnone;
             [ intros [Hx|[]]; discriminate Hx
             | intros (_ & _ & _ & Hx); contradiction ].
        -- split; [split|split].
           ++ intros _.
              split; [reflexivity|split; [reflexivity|split;
                [reflexivity|exact Hne]]].
           ++ intros _. left. reflexivity.
           ++ intros _ Hin. rewrite Hin. reflexivity.
           ++ intros Hx. exfalso. apply Hx. left. reflexivity.
      * unfold_js. unfold emitted; cbn [fst snd log dom].
        rewrite skipn_app, skipn_all, Nat.sub_diag; cbn [skipn app].
        apply Hnone;
          [ intros [Hx|[]]; discriminate Hx
          | intros (_ & _ & Hx & _); discriminate Hx ].
  - (* onInput *)
    unfold onInput. unfold_js.
    (split; [intros; discriminate|]);
      (split; [intros; discriminate|]);
      (split; [intros; discriminate|]);
      (split; [intros ? Hop; discriminate Hop|]).
    destruct (isComposing (session w)); [split; reflexivity|].
    destruct (flush_editor_static K host w) as [H1 H2].
    destruct (flushQueuedNativeOperations K host w) as [[v|err] w1];
      cbn in *; crunch; cbn; split; assumption.
  - (* an animation frame *)
    unfold animation_frame. unfold_js.
    match goal with
    | |- context [run_callbacks ?c ?W] =>
        destruct (run_callbacks_frame c W) as (-> & -> & _)
    end.
    cbn.
    (split; [intros; reflexivity|]);
      (split; [intros; repeat split; reflexivity|]);
      (split; [intros; reflexivity|]);
      (split; [intros ? Hop; discriminate Hop|]);
      split; reflexivity.
Qed.

Ltac split_log :=
  cbn [fst snd log]; rewrite <- ?app_assoc; cbn [app];
  match goal with
  | |- exists pre, _ /\ (?B ++ [next] = ?B ++ pre \/ _) => exists []
  | |- exists pre, _ /\ (?B ++ [?a; next] = ?B ++ pre \/ _) => exists [a]
  | |- exists pre, _ /\ (?B ++ [?a; ?b; next] = ?B ++ pre \/ _) =>
      exists [a; b]
  | |- exists pre, _ /\ (?B ++ [?a; ?b; ?c; next] = ?B ++ pre \/ _) =>
      exists [a; b; c]
  | |- exists pre, _ /\ (?B ++ ?l = ?B ++ pre \/ _) => exists l
  | |- exists pre, _ /\ (?B = ?B ++ pre \/ _) => exists []
  end;
  (split;
   [ cbn; intuition discriminate
   | first [ left; rewrite ?app_nil_r; reflexivity
           | right; split; reflexivity ] ]).

(** X6. A handler calls the continuation at most once and as the last thing
    it does: what it logs is a run of other actions, followed or not by one
    [next]; and when [next] was called the handler has returned, not
    thrown. *)
Theorem continuation_is_called_last (o : Operation) (w : World) :
  let result := perform env K Hotkeys host o w in
  exists pre,
    ~ In next pre
    /\ (log (snd result) = log w ++ pre
        \/ (log (snd result) = log w ++ pre ++ [next]
            /\ fst result = Normal tt)).
Proof.
  cbn zeta.
  destruct o; cbn [perform];
    try (unfold_handlers; unfold_js; crunch; split_log).
  - (* onCompositionEnd *)
    unfold onCompositionEnd. unfold_js.
    match goal with
    | |- context [flushQueuedNativeOperations K host ?W] =>
        destruct (flush_log K host W) as (l & Hl & Hcmd);
        destruct (flushQueuedNativeOperations K host W) as [[v|err] w1]
    end; cbn [fst snd log] in *; exists l;
      (split;
       [ intros Hin; destruct (Hcmd _ Hin) as [(r & s & H)|(r & H)];
         discriminate H
       | rewrite Hl, <- ?app_assoc; auto ]).
  - (* onInput *)
    unfold onInput. unfold_js.
    destruct (isComposing (session w)).
    { exists []. split; [intros []|left; cbn; rewrite app_nil_r; reflexivity]. }
    destruct (flush_log K host w) as (l & Hl & Hcmd).
    destruct (flushQueuedNativeOperations K host w) as [[v|err] w1];
      cbn [fst snd log] in *; exists l;
      (split;
       [ intros Hin; destruct (Hcmd _ Hin) as [(r & s & H)|(r & H)];
         discriminate H
       | crunch; cbn [fst snd log]; rewrite Hl, <- ?app_assoc; auto ]).
  - (* an animation frame *)
    unfold animation_frame. unfold_js.
    match goal with
    | |- context [run_callbacks ?c ?W] =>
        destruct (run_callbacks_frame c W) as (_ & _ & -> & _)
    end.
    exists []. split; [intros []|left; cbn; rewrite app_nil_r; reflexivity].
Qed.

Ltac emitted_in H :=
  unfold emitted in H; cbn [fst snd log] in H;
  rewrite <- ?app_assoc in H;
  rewrite ?skipn_app, ?skipn_all, ?Nat.sub_diag in H; cbn in H.

(** X7. The user-action flag. [clearUserActionPerformed] lowers it and
    [userActionPerformed] reads it without changing anything; no other
    operation ever lowers it; the handlers of blur, copy, cut, the drag
    events, focus and the frame callbacks leave it as it is; and whenever
    one of the other handlers lets an event through to the continuation,
    the flag is up afterwards. *)
Theorem user_action_flag (o : Operation) (w : World) :
  let w' := snd (perform env K Hotkeys host o w) in
  userActionPerformed w = (Normal (isUserActionPerformed (session w)), w)
  /\ (o = ClearUserActionPerformed ->
      isUserActionPerformed (session w') = false)
  /\ (o <> ClearUserActionPerformed ->
      isUserActionPerformed (session w) = true ->
      isUserActionPerformed (session w') = true)
  /\ (marks_user_action o = false ->
      o <> ClearUserActionPerformed ->
      isUserActionPerformed (session w')
      = isUserActionPerformed (session w))
  /\ (marks_user_action o = true ->
      In next (emitted w w') ->
      isUserActionPerformed (session w') = true).
Proof.
  cbn zeta. split; [reflexivity|].
  destruct o; cbn [perform marks_user_action];
    try (unfold_handlers; unfold_js; crunch; cbn [fst snd session];
         (split; [intros H; discriminate H|]);
         (split; [intros _ H; first [reflexivity | exact H | congruence]|]);
         (split; [intros H; first [discriminate H | reflexivity]|]);
         intros H Hin; first [reflexivity | discriminate H
                              | exfalso; emitted_in Hin;
                                intuition discriminate]).
  - (* onCompositionEnd *)
    unfold onCompositionEnd. unfold_js.
    match goal with
    | |- context [flushQueuedNativeOperations K host ?W] =>
        destruct (flush_frame K host W) as [Hs _];
        destruct (flushQueuedNativeOperations K host W) as [[v|err] w1]
    end; cbn [fst snd session] in *; rewrite Hs; cbn;
      repeat split; intros; try discriminate; reflexivity.
  - (* onInput *)
    unfold onInput. unfold_js.
    destruct (isComposing (session w)).
    { cbn. repeat split; intros; try discriminate; auto.
      exfalso. match goal with H : In _ _ |- _ => emitted_in H; exact H end. }
    destruct (flush_frame K host w) as [Hs _].
    destruct (flush_log K host w) as (l & Hl & Hcmd).
    pose proof (@flush_never_true K host w) as Hnt.
    destruct (flushQueuedNativeOperations K host w) as [[v|err] w1];
      cbn [fst snd session log] in *.
    + rewrite (Hnt v w1 eq_refl).
      destruct (isBlurred (selection (value (editor w1))));
        cbn [fst snd session isUserActionPerformed];
        (split; [intros H; discriminate H|]);
        (split; [intros _ H; first [reflexivity | rewrite Hs; exact H]|]);
        (split; [intros H; discriminate H|]);
        intros _ Hin; try reflexivity.
      exfalso. rewrite (emitted_app w w1 l Hl) in Hin.
      destruct (Hcmd _ Hin) as [(r & s & H)|(r & H)]; discriminate H.
    + (split; [intros H; discriminate H|]);
        (split; [intros _ H; rewrite Hs; exact H|]);
        (split; [intros H; discriminate H|]).
      intros _ Hin. exfalso. rewrite (emitted_app w w1 l Hl) in Hin.
      destruct (Hcmd _ Hin) as [(r & s & H)|(r & H)]; discriminate H.
  - (* the command *)
    cbn. repeat split; intros; try discriminate; auto; congruence.
  - (* an animation frame *)
    unfold animation_frame. unfold_js.
    match goal with
    | |- context [run_callbacks ?c ?W] =>
        destruct (run_callbacks_session c W) as (_ & _ & -> & _)
    end.
    cbn. repeat split; intros; try discriminate; auto.
Qed.

(** What an operation does to the composition state: the count moves at a
    composition start only; apart from the two composition handlers, input
    and the frame callbacks, [isComposing] and the editor stay and at most
    a copy callback is queued. *)
Lemma perform_composition_state (o : Operation) (w : World) :
  let w' := snd (perform env K Hotkeys host o w) in
  compositionCount (session w')
  = (if is_CompositionStart o then js_incr (compositionCount (session w))
     else compositionCount (session w))
  /\ (writes_editor o = false ->
      o <> AnimationFrame ->
      isComposing (session w') = isComposing (session w)
      /\ (frame_requests w' = frame_requests w
          \/ frame_requests w' = frame_requests w ++ [finish_copying])).
Proof.
  cbn zeta.
  destruct o; cbn [perform is_CompositionStart writes_editor];
    try (unfold_handlers; unfold_js; crunch; cbn;
         (split; [reflexivity|]); intros; try discriminate;
         (split;
          [ first [reflexivity | congruence]
          | first [left; reflexivity | right; reflexivity] ])).
  - (* onCompositionEnd *)
    unfold onCompositionEnd. unfold_js.
    match goal with
    | |- context [flushQueuedNativeOperations K host ?W] =>
        destruct (flush_frame K host W) as [Hs _];
        destruct (flushQueuedNativeOperations K host W) as [[v|err] w1]
    end; cbn [fst snd session] in *; rewrite Hs; cbn;
      split; [reflexivity|discriminate|reflexivity|discriminate].
  - (* onInput *)
    unfold onInput. unfold_js.
    destruct (isComposing (session w)); [cbn; split; [reflexivity|discriminate]|].
    destruct (flush_frame K host w) as [Hs _].
    destruct (flushQueuedNativeOperations K host w) as [[v|err] w1];
      cbn [fst snd session] in *; crunch; cbn; rewrite Hs;
      (split; [reflexivity|discriminate]).
  - (* an animation frame *)
    unfold animation_frame. unfold_js.
    match goal with
    | |- context [run_callbacks ?c ?W] =>
        destruct (run_callbacks_frame c W) as (_ & _ & _ & ->)
    end.
    cbn. split; [reflexivity|]. intros _ H. contradiction.
Qed.

Lemma run_callbacks_stale (cbs : list Callback) (w : World) :
  Forall (callback_stale (compositionCount (session w))) cbs ->
  isComposing (session (snd (run_callbacks cbs w))) = isComposing (session w).
Proof.
  revert w. induction cbs as [|cb cbs IH]; intros w Hall; [reflexivity|].
  inversion Hall as [|? ? Hcb Hrest]; subst.
  cbn [run_callbacks]. unfold bind.
  destruct cb as [n|]; unfold run_callback; unfold_js.
  - cbn in Hcb. apply N.ltb_lt in Hcb. rewrite Hcb. apply IH. exact Hrest.
  - rewrite IH; [reflexivity|exact Hrest].
Qed.

Lemma perform_editor_frame (o : Operation) (w : World) :
  writes_editor o = false ->
  editor (snd (perform env K Hotkeys host o w)) = editor w.
Proof.
  intros Ho. destruct o; try discriminate Ho; cbn [perform];
    try (unfold_handlers; unfold_js; crunch; reflexivity).
  unfold animation_frame. unfold_js.
  match goal with
  | |- context [run_callbacks ?c ?W] =>
      destruct (run_callbacks_frame c W) as (-> & _)
  end.
  reflexivity.
Qed.

(** What an operation other than a frame queues: at most one callback,
    bounded by the count of the moment; only [onCompositionEnd] queues a
    composition callback. *)
Lemma perform_queue (o : Operation) (w : World) :
  o <> AnimationFrame ->
  exists l,
    frame_requests (snd (perform env K Hotkeys host o w))
    = frame_requests w ++ l
    /\ Forall (callback_bounded (compositionCount (session w))) l
    /\ ((forall e, o <> CompositionEnd e) ->
        forall n, Forall (callback_stale n) l).
Proof.
  intros Hnf.
  assert (Hnil : forall q : list Callback,
            q = q ++ []
            /\ Forall (callback_bounded (compositionCount (session w))) []
            /\ ((forall e, o <> CompositionEnd e) ->
                forall n, Forall (callback_stale n) [])).
  { intros q. rewrite app_nil_r. repeat split; constructor. }
  assert (Hcopy : forall q : list Callback,
            q ++ [finish_copying] = q ++ [finish_copying]
            /\ Forall (callback_bounded (compositionCount (session w)))
                      [finish_copying]
            /\ ((forall e, o <> CompositionEnd e) ->
                forall n, Forall (callback_stale n) [finish_copying])).
  { intros q. repeat split; repeat constructor. }
  destruct o; cbn [perform]; try contradiction;
    try (unfold_handlers; unfold_js; crunch; cbn [snd frame_requests];
         first [ exists []; apply Hnil | exists [finish_copying]; apply Hcopy ]).
  - (* onCompositionEnd *)
    unfold onCompositionEnd. unfold_js.
    match goal with
    | |- context [flushQueuedNativeOperations K host ?W] =>
        destruct (flush_frame K host W) as [_ Hf];
        destruct (flushQueuedNativeOperations K host W) as [[v|err] w1]
    end; cbn [fst snd frame_requests] in *; rewrite Hf.
    + exists [finish_composition (compositionCount (session w))].
      split; [reflexivity|]. split.
      * constructor; [cbn; lia|constructor].
      * intros H. exfalso. apply (H e). reflexivity.
    + exists []. apply Hnil.
  - (* onInput *)
    unfold onInput. unfold_js.
    destruct (isComposing (session w)); [exists []; apply Hnil|].
    destruct (flush_frame K host w) as [_ Hf].
    destruct (flushQueuedNativeOperations K host w) as [[v|err] w1];
      cbn [fst snd frame_requests] in *; crunch; cbn [snd frame_requests];
      rewrite Hf; exists []; apply Hnil.
Qed.

Lemma animation_frame_queue (w : World) :
  frame_requests (snd (animation_frame w)) = [].
Proof.
  unfold animation_frame. unfold_js.
  match goal with
  | |- context [run_callbacks ?c ?W] =>
      destruct (run_callbacks_session c W) as (_ & _ & _ & ->)
  end.
  reflexivity.
Qed.

Lemma Forall_bounded_weaken (c c' : N) (q : list Callback) :
  (c <= c')%N -> Forall (callback_bounded c) q -> Forall (callback_bounded c') q.
Proof.
  intros Hle H. eapply Forall_impl; [|exact H].
  intros [n|]; cbn; [lia|auto].
Qed.

Lemma queue_bounded_step (o : Operation) (w : World) :
  queue_bounded w -> queue_bounded (snd (perform env K Hotkeys host o w)).
Proof.
  intros Hq. unfold queue_bounded in *.
  assert (Hdec : o = AnimationFrame \/ o <> AnimationFrame).
  { destruct o; try (right; discriminate). left. reflexivity. }
  destruct Hdec as [->|Hnf].
  - cbn [perform]. rewrite animation_frame_queue. constructor.
  - destruct (perform_queue w Hnf) as (l & -> & Hl & _).
    pose proof (perform_count_mono env K Hotkeys host o w) as Hm.
    apply Forall_app. split; eapply Forall_bounded_weaken; eauto.
Qed.

(** X8. No frame callback waiting ever carries a count from the future,
    whatever operations have run; so the test [compositionCount > n] of a
    waiting callback is a test for inequality: run at the count it
    carries it ends the composition, run at any other count it does
    nothing. *)
Theorem waiting_callbacks_are_bounded (os : list Operation) (w : World) :
  queue_bounded w ->
  let w' := perform_all env K Hotkeys host os w in
  queue_bounded w'
  /\ forall n,
       In (finish_composition n) (frame_requests w') ->
       (n <= compositionCount (session w'))%N
       /\ (compositionCount (session w') = n ->
           run_callback (finish_composition n) w'
           = (Normal tt, composition_finished w'))
       /\ (compositionCount (session w') <> n ->
           run_callback (finish_composition n) w' = (Normal tt, w')).
Proof.
  intros Hq. cbn zeta.
  assert (Hq' : queue_bounded (perform_all env K Hotkeys host os w)).
  { revert w Hq. induction os as [|o os IH]; intros w Hq; [exact Hq|].
    cbn [perform_all]. apply IH. apply queue_bounded_step. exact Hq. }
  split; [exact Hq'|]. intros n Hin.
  unfold queue_bounded in Hq'. rewrite Forall_forall in Hq'.
  specialize (Hq' _ Hin). cbn in Hq'. split; [exact Hq'|].
  unfold run_callback. unfold_js. split.
  - intros ->. rewrite N.ltb_irrefl. reflexivity.
  - intros Hne.
    assert (Hlt : (n <? compositionCount
                          (session (perform_all env K Hotkeys host os w)))%N
                  = true) by (apply N.ltb_lt; lia).
    rewrite Hlt. reflexivity.
Qed.

Lemma Forall_stale_of_bounded (c : N) (q : list Callback) :
  Forall (callback_bounded c) q -> Forall (callback_stale (c + 1)) q.
Proof.
  intros H. eapply Forall_impl; [|exact H].
  intros [n|]; cbn; [lia|auto].
Qed.

Lemma composing_while_pending_step (o : Operation) (w : World) :
  queue_bounded w ->
  composing_while_pending w ->
  (compositionCount (session w) < 2 ^ 53)%N ->
  composing_while_pending (snd (perform env K Hotkeys host o w)).
Proof.
  intros Hq Hp Hlt. unfold composing_while_pending in *.
  destruct (perform_composition_state o w) as [Hcount Hstate].
  cbn zeta in *.
  destruct o;
    try (match goal with
         | |- context [perform env K Hotkeys host ?op w] =>
             rewrite (@perform_editor_frame op w eq_refl)
         end;
         intros Hs; destruct (Hp Hs) as [Hc Hst];
         destruct (Hstate eq_refl ltac:(discriminate)) as [-> Hfr];
         rewrite Hcount; cbn [is_CompositionStart];
         split; [exact Hc|];
         destruct Hfr as [->| ->]; [exact Hst|];
         apply Forall_app; split; [exact Hst|repeat constructor]).
  - (* onCompositionEnd *)
    intros Hs. exfalso. apply Hs. cbn [perform]. unfold onCompositionEnd.
    unfold_js.
    match goal with
    | |- context [flushQueuedNativeOperations K host ?W] =>
        pose proof (flush_clears_slot K host W) as Hc;
        destruct (flushQueuedNativeOperations K host W) as [[v|err] w1]
    end; exact Hc.
  - (* onCompositionStart *)
    intros _. cbn [is_CompositionStart] in Hcount. rewrite Hcount.
    destruct (onCompositionStart_count K host e w) as [_ Hc].
    split; [exact Hc|].
    destruct (@perform_queue (CompositionStart e) w ltac:(discriminate))
      as (l & Hl & _ & Hst).
    cbn [perform] in *. rewrite Hl, (js_incr_lt Hlt).
    apply Forall_app. split.
    + apply Forall_stale_of_bounded. exact Hq.
    + apply Hst. intros e0. discriminate.
  - (* onInput *)
    cbn [perform] in *. unfold onInput in *. unfold_js.
    destruct (isComposing (session w)) eqn:Ec.
    { cbn [snd]. intros Hs. destruct (Hp Hs) as [_ Hst].
      split; [exact Ec|exact Hst]. }
    intros Hs. exfalso. apply Hs.
    pose proof (flush_clears_slot K host w) as Hc.
    destruct (flushQueuedNativeOperations K host w) as [[v|err] w1];
      cbn [fst snd] in *; crunch; exact Hc.
  - (* an animation frame *)
    rewrite (@perform_editor_frame AnimationFrame w eq_refl).
    intros Hs. destruct (Hp Hs) as [Hc Hst].
    cbn [perform]. rewrite animation_frame_queue.
    split; [|constructor].
    unfold animation_frame. unfold_js.
    rewrite run_callbacks_stale; [exact Hc|exact Hst].
Qed.

(** X9. The plugin fills the slot only while composing. In any run of
    operations that keeps [compositionCount] below [2^53], from a state in
    which no callback waiting carries a count from the future, a Pending
    Native Operation implies [isComposing]; so whenever the plugin is not
    composing the slot is empty, and the flush that [onInput] tries then
    has nothing to do. This holds in particular for every run of a fresh
    plugin. *)
Theorem pending_only_while_composing (os : list Operation) (w : World) :
  queue_bounded w ->
  composing_while_pending w ->
  let w' := perform_all env K Hotkeys host os w in
  (compositionCount (session w') < 2 ^ 53)%N ->
  composing_while_pending w'
  /\ (isComposing (session w') = false ->
      nextNativeOperation (editor w') = None
      /\ flushQueuedNativeOperations K host w' = (Normal (boolean false), w')).
Proof.
  intros Hq Hp. cbn zeta. intros Hlt.
  assert (Hinv : composing_while_pending (perform_all env K Hotkeys host os w)).
  { revert w Hq Hp Hlt.
    induction os as [|o os IH]; intros w Hq Hp Hlt; [exact Hp|].
    cbn [perform_all] in *.
    pose proof (perform_all_count_mono env K Hotkeys host os
                  (snd (perform env K Hotkeys host o w))) as Hm1.
    pose proof (perform_count_mono env K Hotkeys host o w) as Hm2.
    apply IH; [apply queue_bounded_step; exact Hq| |exact Hlt].
    apply composing_while_pending_step; [exact Hq|exact Hp|lia]. }
  split; [exact Hinv|]. intros Hnc.
  assert (Hnone : nextNativeOperation
                    (editor (perform_all env K Hotkeys host os w)) = None).
  { destruct (nextNativeOperation
                (editor (perform_all env K Hotkeys host os w))) eqn:E;
      [|reflexivity].
    destruct Hinv as [Hc _]; [rewrite E; discriminate|]. congruence. }
  split; [exact Hnone|]. apply flush_nothing_pending. exact Hnone.
Qed.

Lemma fresh_plugin_invariant (w : World) :
  fresh_plugin w -> queue_bounded w /\ composing_while_pending w.
Proof.
  intros (Hs & Hn & Hf). unfold queue_bounded, composing_while_pending.
  rewrite Hf. split; [constructor|]. intros H. contradiction.
Qed.

(** X10. [compositionCount] counts the composition starts: after a run it
    has grown by the number of [onCompositionStart] calls in the run,
    thrown or not, as long as that stays within [2^53]. *)
Theorem compositionCount_counts_starts (os : list Operation) (w : World) :
  (compositionCount (session w) + count_starts os <= 2 ^ 53)%N ->
  compositionCount (session (perform_all env K Hotkeys host os w))
  = (compositionCount (session w) + count_starts os)%N.
Proof.
  revert w. induction os as [|o os IH]; intros w Hle;
    cbn [perform_all count_starts] in *; [lia|].
  destruct (perform_composition_state o w) as [Hc _]. cbn zeta in Hc.
  rewrite IH; rewrite Hc; destruct (is_CompositionStart o);
    try rewrite js_incr_lt; lia.
Qed.


(** X12. The recorded active element. [onFocus] and [onSelect], when their
    guards let them run, record [document.activeElement] (on Firefox
    [onFocus] does so even for the event it then sends back to the root
    instead of passing it on); no other operation writes the record; and
    a blur that arrives while the document still has the recorded element
    active, as on a switch of tabs, is ignored. *)
Theorem activeElement_is_recorded (w : World) (e : Event) :
  (isCopying (session w) = false ->
   readOnly (editor w) = false ->
   activeElement (session (snd (onFocus env e w)))
   = Dom.activeElement (dom w)
   /\ (In next (emitted w (snd (onFocus env e w))) <->
       (IS_FIREFOX env && negb (Nat.eqb (target e) (el (editor w)))) = false))
  /\ (isComposing (session w) = false ->
      isCopying (session w) = false ->
      readOnly (editor w) = false ->
      activeElement (session (snd (onSelect e w)))
      = Dom.activeElement (dom w))
  /\ (forall o,
        writes_activeElement o = false ->
        activeElement (session (snd (perform env K Hotkeys host o w)))
        = activeElement (session w))
  /\ (forall e2 w2,
        isCopying (session w) = false ->
        readOnly (editor w) = false ->
        session w2 = session (snd (onFocus env e w)) ->
        Dom.activeElement (dom w2) = Dom.activeElement (dom w) ->
        onBlur K host e2 w2 = (Normal tt, w2)).
Proof.
  split; [|split; [|split]].
  - intros Hc Hro. unfold onFocus. unfold_js. rewrite Hc, Hro.
    destruct (IS_FIREFOX env && negb (Nat.eqb (target e) (el (editor w))));
      cbn [fst snd session activeElement]; (split; [reflexivity|]);
      (split; [intros Hin; emitted_in Hin; intuition discriminate|]);
      intros H; try discriminate H.
    unfold emitted. cbn [snd log].
    rewrite skipn_app, skipn_all, Nat.sub_diag. cbn. auto.
  - intros Hc Hcp Hro. unfold onSelect. unfold_js. rewrite Hc, Hcp, Hro.
    reflexivity.
  - intros o Ho. destruct o; try discriminate Ho; cbn [perform];
      try (unfold_handlers; unfold_js; crunch; reflexivity).
    + unfold onCompositionEnd. unfold_js.
      match goal with
      | |- context [flushQueuedNativeOperations K host ?W] =>
          destruct (flush_frame K host W) as [Hs _];
          destruct (flushQueuedNativeOperations K host W) as [[v|err] w1]
      end; cbn [fst snd session] in *; rewrite Hs; reflexivity.
    + unfold onInput. unfold_js.
      destruct (isComposing (session w)); [reflexivity|].
      destruct (flush_frame K host w) as [Hs _].
      destruct (flushQueuedNativeOperations K host w) as [[v|err] w1];
        cbn [fst snd session] in *; crunch; cbn; rewrite Hs; reflexivity.
    + unfold animation_frame. unfold_js.
      match goal with
      | |- context [run_callbacks ?c ?W] =>
          destruct (run_callbacks_session c W) as (-> & _)
      end.
      reflexivity.
  - intros e2 w2 Hc Hro Hs Ha. rewrite onBlur_spec.
    replace (blur_ignored K host w2 e2) with true; [reflexivity|].
    symmetry. unfold blur_ignored. rewrite Hs, Ha.
    unfold onFocus. unfold_js. rewrite Hc, Hro.
    destruct (IS_FIREFOX env && negb (Nat.eqb (target e) (el (editor w))));
      cbn [fst snd session activeElement isCopying];
      rewrite Hc;
      replace (ref_eqb (Dom.activeElement (dom w)) (Dom.activeElement (dom w)))
        with true by (symmetry; apply ref_eqb_eq; reflexivity);
      cbn; rewrite ?Bool.orb_true_r; reflexivity.
Qed.

(** X13. [onCompositionEnd] never lowers [isComposing] itself, always
    empties the slot and raises the user-action flag. When the flush
    throws, the error goes up, the continuation is not called and no
    frame callback is queued, so nothing is left that would end the
    composition state; when it returns, exactly the callback with the
    count of the moment is queued and the continuation is called. *)
Theorem onCompositionEnd_outcomes (w : World) (e : Event) :
  let result := onCompositionEnd K host e w in
  let w' := snd result in
  isComposing (session w') = isComposing (session w)
  /\ nextNativeOperation (editor w') = None
  /\ isUserActionPerformed (session w') = true
  /\ (forall err,
        fst result = Throw err ->
        frame_requests w' = frame_requests w
        /\ ~ In next (emitted w w'))
  /\ (fst result = Normal tt ->
      frame_requests w'
      = frame_requests w ++ [finish_composition (compositionCount (session w))]
      /\ In next (emitted w w')).
Proof.
  cbn zeta. unfold onCompositionEnd. unfold_js.
  match goal with
  | |- context [flushQueuedNativeOperations K host ?W] =>
      destruct (flush_frame K host W) as [Hs Hf];
      destruct (flush_log K host W) as (l & Hl & Hcmd);
      pose proof (flush_clears_slot K host W) as Hc;
      destruct (flushQueuedNativeOperations K host W) as [[v|err] w1]
  end; cbn [fst snd session frame_requests log editor] in *;
    rewrite ?Hs, ?Hf; cbn [isComposing isUserActionPerformed];
    (split; [reflexivity|]); (split; [exact Hc|]); (split; [reflexivity|]);
    split; try (intros err' H; discriminate H); try (intros H; discriminate H).
  - intros _. split; [reflexivity|].
    unfold emitted. cbn [log]. rewrite Hl, <- app_assoc.
    rewrite skipn_app, skipn_all, Nat.sub_diag. cbn.
    apply in_or_app. right. left. reflexivity.
  - intros err' _. split; [reflexivity|].
    rewrite (emitted_app w w1 l Hl). intros Hin.
    destruct (Hcmd _ Hin) as [(r & s & H)|(r & H)]; discriminate H.
Qed.

(** X14. [onCompositionStart] does not check that a container was found:
    with the caret outside every keyed element it captures an operation
    whose container is [null] and returns normally. Such an operation can
    never be flushed: whatever the DOM is by then, the flush, and with it
    the [onCompositionEnd] that runs it, throws. *)
Theorem uncontained_operation_never_flushes (w : World) (e : Event) :
  (forall op,
     nextNativeOperation (editor w) = Some op ->
     slateSpanNode op = None ->
     (exists err, flushQueuedNativeOperations K host w
                  = (Throw err, slot_cleared w))
     /\ exists err, fst (onCompositionEnd K host e w) = Throw err)
  /\ (forall textNode off parent,
        isCollapsed (selection (value (editor w))) = true ->
        nextNativeOperation (editor w) = None ->
        Dom.anchor (dom w) = Some (textNode, off) ->
        Dom.parentElement textNode (dom w) = Some parent ->
        current_container K (dom w) = None ->
        fst (onCompositionStart K host e w) = Normal tt
        /\ nextNativeOperation (editor (snd (onCompositionStart K host e w)))
           = Some (mkNativeOperation (selection (value (editor w))) None)).
Proof.
  split.
  - intros op Hop Hnone.
    assert (Hflush : forall W,
              nextNativeOperation (editor W) = Some op ->
              exists err, flushQueuedNativeOperations K host W
                          = (Throw err, slot_cleared W)).
    { intros W HW. unfold flushQueuedNativeOperations. unfold_js.
      rewrite HW, Hnone.
      destruct (Dom.anchor (dom W)) as [[t off]|]; [|eexists; reflexivity].
      destruct (Dom.parentElement t (dom W)); [|eexists; reflexivity].
      destruct (Dom.closest (SELECTORS_KEY K) (Dom.node_id n) (dom W));
        eexists; reflexivity. }
    split; [apply Hflush; exact Hop|].
    unfold onCompositionEnd. unfold_js.
    match goal with
    | |- context [flushQueuedNativeOperations K host ?W] =>
        destruct (Hflush W Hop) as (err & ->)
    end.
    exists err. reflexivity.
  - intros t off p Hc Hn Ha Hp Hcur. unfold current_container in Hcur.
    rewrite Ha, Hp in Hcur.
    unfold onCompositionStart. unfold_js. rewrite Hc, Hn, Ha, Hp, Hcur.
    cbn. split; reflexivity.
Qed.


Lemma insertTextAtRange_other_node
    (r : Range) (s : jsstring) (v : Value) (k : string) :
  k <> key (anchor r) ->
  getNode k (document (insertTextAtRange r s v)) = getNode k (document v).
Proof.
  intros Hne. unfold insertTextAtRange. cbn [document].
  rewrite getNode_map.
  - destruct (getNode k (document v)) as [n|] eqn:E; [|reflexivity].
    cbn. apply getNode_key in E. rewrite E.
    destruct (String.eqb_spec k (key (anchor r))); [contradiction|].
    reflexivity.
  - intros n. destruct (String.eqb (node_key n) (key (anchor r)));
      reflexivity.
Qed.

End Coverage.

(** ** The loop over the live child list *)

Lemma remove_br_children_facts (n : nat) (cs : list Dom.node) :
  List.length cs <= n ->
  Permutation cs (fst (remove_br_children cs) ++ snd (remove_br_children cs))
  /\ Forall (fun c => is_br c = true) (snd (remove_br_children cs))
  /\ existsb is_br (fst (remove_br_children cs)) = has_adjacent_br cs.
Proof.
  revert cs. induction n as [|n IH]; intros cs Hlen.
  - destruct cs; [|cbn in Hlen; lia]. cbn. repeat split; constructor.
  - destruct cs as [|c rest]; [cbn; repeat split; constructor|].
    cbn in Hlen. cbn [remove_br_children].
    destruct (is_br c) eqn:Ec.
    + destruct rest as [|c' rest'].
      * cbn. rewrite ?Ec. repeat split; repeat constructor; exact Ec.
      * cbn in Hlen.
        destruct (IH rest' ltac:(lia)) as (Hp & Hf & He).
        destruct (remove_br_children rest') as [kept gone] eqn:Er.
        cbn [fst snd] in *. split; [|split].
        -- cbn [app]. apply Permutation_sym.
           eapply Permutation_trans.
           ++ apply perm_skip. apply Permutation_sym.
              apply Permutation_middle.
           ++ eapply Permutation_trans; [apply perm_swap|].
              do 2 apply perm_skip. apply Permutation_sym. exact Hp.
        -- constructor; [exact Ec|exact Hf].
        -- cbn [existsb has_adjacent_br]. rewrite ?Ec, He. cbn [andb].
           destruct rest' as [|c'' rest'']; cbn [has_adjacent_br];
             destruct (is_br c'); cbn; reflexivity.
    + destruct (IH rest ltac:(lia)) as (Hp & Hf & He).
      destruct (remove_br_children rest) as [kept gone] eqn:Er.
      cbn [fst snd] in *. split; [|split].
      * cbn [app]. apply perm_skip. exact Hp.
      * exact Hf.
      * cbn [existsb]. rewrite ?Ec, He. cbn [orb].
        destruct rest as [|c' rest']; cbn [has_adjacent_br];
          [reflexivity|]. rewrite ?Ec. reflexivity.
Qed.

(** X17. The loop that removes line breaks from a run loses nothing and
    removes line breaks only: the children kept and the children removed
    are the children there were, everything removed is a [BR], and every
    child that is not a [BR] is kept. The iteration over the live list by
    index ends after at most as many rounds as there were children and
    gives this result. *)
Theorem remove_br_children_partition (cs : list Dom.node) :
  let kept := fst (remove_br_children cs) in
  let gone := snd (remove_br_children cs) in
  Permutation cs (kept ++ gone)
  /\ Forall (fun c => is_br c = true) gone
  /\ (forall c, In c cs -> is_br c = false -> In c kept)
  /\ for_of_childNodes (List.length cs) 0 cs [] = (kept, gone).
Proof.
  cbn zeta.
  destruct (@remove_br_children_facts (List.length cs) cs (Nat.le_refl _))
    as (Hp & Hf & _).
  split; [exact Hp|]. split; [exact Hf|]. split.
  - intros c Hin Hc.
    apply (Permutation_in _ Hp) in Hin. apply in_app_or in Hin.
    destruct Hin as [Hin|Hin]; [exact Hin|].
    rewrite Forall_forall in Hf. rewrite (Hf c Hin) in Hc. discriminate.
  - rewrite for_of_childNodes_remove_br.
    destruct (remove_br_children cs). reflexivity.
Qed.

(** X18. The loop does not remove every line break: because the live list
    shifts under the iterator, a [BR] is left behind exactly when two of
    them stood next to each other. *)
Theorem remove_br_children_leaves_adjacent (cs : list Dom.node) :
  existsb is_br (fst (remove_br_children cs)) = has_adjacent_br cs.
Proof.
  apply (@remove_br_children_facts (List.length cs) cs (Nat.le_refl _)).
Qed.

(** ** A composition the input method left no trace of *)

Section Untouched.

Variable K : Constants.
Variable host : Host.

Lemma clean_text_run_clean (r : Dom.ref) (d : Dom.t) :
  (forall n, Dom.find r d = Some n -> run_is_clean K n = true) ->
  clean_text_run K r d = d.
Proof.
  intros H. unfold clean_text_run.
  destruct (Dom.find r d) as [n|]; [|reflexivity].
  specialize (H n eq_refl). unfold run_is_clean in H. cbn zeta in H.
  destruct (Dom.hasAttribute (DATA_ATTRS_STRING K) n
            || Dom.hasAttribute (DATA_ATTRS_ZERO_WIDTH K) n); [|reflexivity].
  cbn [andb] in H. apply Bool.negb_true_iff in H. rewrite H. reflexivity.
Qed.

Lemma clean_text_runs_clean (c : Dom.ref) (d : Dom.t) :
  container_is_clean K c d -> clean_text_runs K c d = d.
Proof.
  intros H. unfold clean_text_runs, container_is_clean in *.
  destruct (Dom.find c d) as [cn|]; [|reflexivity].
  specialize (H cn). unfold string_or_zero_width.
  induction (Dom.querySelectorAll
               (fun t a => SELECTORS_STRING K t a || SELECTORS_ZERO_WIDTH K t a)
               cn) as [|r l IH]; [reflexivity|].
  cbn [fold_left]. rewrite clean_text_run_clean.
  - apply IH. intros r' n Hc Hin. apply H; [exact Hc|right; exact Hin].
  - intros n Hn. apply (H r n eq_refl); [left; reflexivity|exact Hn].
Qed.

(** The trees after a flush are the ones before or the cleaned ones. *)
Lemma flush_trees (w : World) :
  let w' := snd (flushQueuedNativeOperations K host w) in
  (Dom.document (dom w') = Dom.document (dom w)
   /\ Dom.detached (dom w') = Dom.detached (dom w))
  \/ exists c,
       current_container K (dom w) = Some c
       /\ Dom.document (dom w')
          = Dom.document (clean_text_runs K c (dom w))
       /\ Dom.detached (dom w')
          = Dom.detached (clean_text_runs K c (dom w)).
Proof.
  cbn zeta. unfold flushQueuedNativeOperations, current_container.
  unfold_js.
  repeat (break_match; unfold_js; try (left; split; reflexivity));
    try use_collapse_frame;
    (right; eexists; split; [reflexivity|]; split;
     first [reflexivity | assumption]).
Qed.

Lemma flush_of_clean_container_trees (w : World) (c : Dom.ref) :
  current_container K (dom w) = Some c ->
  container_is_clean K c (dom w) ->
  Dom.document (dom (snd (flushQueuedNativeOperations K host w)))
  = Dom.document (dom w)
  /\ Dom.detached (dom (snd (flushQueuedNativeOperations K host w)))
     = Dom.detached (dom w).
Proof.
  intros Hc Hclean.
  destruct (flush_trees w) as [H|(c' & Hc' & H1 & H2)]; [exact H|].
  rewrite Hc in Hc'. injection Hc' as <-.
  rewrite (clean_text_runs_clean Hclean) in H1, H2. split; assumption.
Qed.

Lemma node_eqb_refl (n : Node) : node_eqb n n = true.
Proof. apply node_eqb_eq. reflexivity. Qed.

(** A flush whose container is clean and in step with the logical node
    writes the node's own text back. *)
Lemma flush_in_step
    (w : World) (op : NativeOperation) (c : Dom.ref) (cn : Dom.node) (n : Node) :
  nextNativeOperation (editor w) = Some op ->
  slateSpanNode op = Some c ->
  current_container K (dom w) = Some c ->
  Dom.find c (dom w) = Some cn ->
  container_is_clean K c (dom w) ->
  getNode (snapshot_key op) (document (value (editor w))) = Some n ->
  findNode host (dom w) (value (editor w)) c = Some n ->
  strip_zero_width (Dom.textContent cn) = text n ->
  let w' := snd (flushQueuedNativeOperations K host w) in
  (forall k, getNode k (document (value (editor w')))
             = getNode k (document (value (editor w))))
  /\ (exists r, In (editor_insertTextAtRange r (text n)) (emitted w w')).
Proof.
  intros Hop Hspan Hcur Hfind Hclean Hnode Hfn Htext. cbn zeta.
  assert (Hdoc : forall r,
            key (anchor r) = snapshot_key op ->
            offset (anchor r) = 0 ->
            offset (focus r) = List.length (text n) ->
            forall k,
              getNode k (document (insertTextAtRange r (text n)
                                     (value (editor w))))
              = getNode k (document (value (editor w)))).
  { intros r Hk Ha Hf k.
    destruct (String.eqb_spec k (snapshot_key op)) as [->|Hne].
    - unfold insertTextAtRange. cbn [document]. rewrite getNode_map.
      + rewrite Hnode. cbn [option_map]. rewrite Hk, Ha, Hf.
        rewrite (getNode_key _ _ Hnode), String.eqb_refl.
        cbn [firstn]. rewrite skipn_all, app_nil_r.
        pose proof (getNode_key _ _ Hnode) as Hkey.
        destruct n as [nk nt]. cbn in *. rewrite Hkey. reflexivity.
      + intros m. destruct (String.eqb (node_key m) (key (anchor r)));
          reflexivity.
    - apply insertTextAtRange_other_node. rewrite Hk. exact Hne. }
  unfold current_container in Hcur.
  unfold flushQueuedNativeOperations. unfold_js. rewrite Hop, Hspan.
  fold (snapshot_key op).
  destruct (Dom.anchor (dom w)) as [[t off]|]; [|discriminate Hcur].
  destruct (Dom.parentElement t (dom w)) as [p|] eqn:Ep;
    [|discriminate Hcur].
  rewrite Hcur.
  replace (ref_eqb (Some c) (Some c)) with true
    by (symmetry; apply ref_eqb_eq; reflexivity).
  cbn [negb]. rewrite Hnode, Hfn. cbn [strict_neq].
  rewrite node_eqb_refl. cbn [negb].
  unfold_js. rewrite (clean_text_runs_clean Hclean).
  unfold container_text. rewrite Hfind, Htext, Ep.
  match goal with
  | |- context [findPoint host ?d ?val t off] =>
      destruct (findPoint host d val t off) as [point|]
  end; unfold_js.
  - match goal with
    | |- context [collapse t off ?W] =>
        pose proof (collapse_frame t off W) as Hcf;
        destruct (collapse t off W) as [[[]|err] w1]
    end; cbn [fst snd] in *; unfold_js;
      destruct Hcf as (_ & He & _ & Hl & _); rewrite He;
      cbn [value select document];
      (split; [apply Hdoc; reflexivity|]);
      eexists; erewrite emitted_app
        by (rewrite Hl; cbn [log]; rewrite <- app_assoc; reflexivity);
      left; reflexivity.
  - cbn [value document].
    split; [apply Hdoc; reflexivity|].
    eexists. erewrite emitted_app by (cbn [log]; reflexivity).
    left. reflexivity.
Qed.

(** X20. A composition that ends as it began. When a composition starts
    on a collapsed selection with the slot empty, the container of the
    caret is clean, the editor maps it to the node of the selection's key
    and its text without U+FEFF is that node's text, then [onCompositionEnd]
    right after [onCompositionStart] writes that same text back: every key
    of the document resolves to the node it resolved to before, the DOM
    trees are the same and the slot is empty again. *)
Theorem untouched_composition_changes_nothing
    (w : World) (e e2 : Event) (c : Dom.ref) (cn : Dom.node) (n : Node) :
  isCollapsed (selection (value (editor w))) = true ->
  nextNativeOperation (editor w) = None ->
  current_container K (dom w) = Some c ->
  Dom.find c (dom w) = Some cn ->
  container_is_clean K c (dom w) ->
  getNode (key (anchor (sel_range (selection (value (editor w))))))
          (document (value (editor w))) = Some n ->
  findNode host (dom w) (value (editor w)) c = Some n ->
  strip_zero_width (Dom.textContent cn) = text n ->
  let started := snd (onCompositionStart K host e w) in
  let ended := snd (onCompositionEnd K host e2 started) in
  fst (onCompositionStart K host e w) = Normal tt
  /\ nextNativeOperation (editor started)
     = Some (mkNativeOperation (selection (value (editor w))) (Some c))
  /\ (forall k, getNode k (document (value (editor ended)))
                = getNode k (document (value (editor w))))
  /\ (exists r, In (editor_insertTextAtRange r (text n))
                   (emitted started ended))
  /\ Dom.document (dom ended) = Dom.document (dom w)
  /\ Dom.detached (dom ended) = Dom.detached (dom w)
  /\ nextNativeOperation (editor ended) = None.
Proof.
  intros Hcol Hnone Hcur Hfind Hclean Hnode Hfn Htext. cbn zeta.
  assert (Hstart :
    onCompositionStart K host e w
    = (Normal tt,
       mkWorld
         (mkSession (activeElement (session w))
                    (js_incr (compositionCount (session w))) true
                    (isCopying (session w)) (isDragging (session w)) true)
         (mkEditor (readOnly (editor w)) (value (editor w))
                   (Some (mkNativeOperation (selection (value (editor w)))
                                            (Some c)))
                   (el (editor w)))
         (dom w) (frame_requests w) (log w ++ [next]))).
  { unfold onCompositionStart. unfold_js. rewrite Hcol, Hnone. cbn [negb].
    unfold current_container in Hcur.
    destruct (Dom.anchor (dom w)) as [[t off]|]; [|discriminate Hcur].
    destruct (Dom.parentElement t (dom w)) as [p|]; [|discriminate Hcur].
    rewrite Hcur. reflexivity. }
  rewrite Hstart. cbn [fst snd editor nextNativeOperation].
  split; [reflexivity|]. split; [reflexivity|].
  set (started := mkWorld _ _ _ _ _).
  set (op := mkNativeOperation (selection (value (editor w))) (Some c)).
  set (flagged :=
         mkWorld (mkSession (activeElement (session started))
                            (compositionCount (session started))
                            (isComposing (session started))
                            (isCopying (session started))
                            (isDragging (session started)) true)
                 (editor started) (dom started) (frame_requests started)
                 (log started)).
  assert (Hend_editor :
    editor (snd (onCompositionEnd K host e2 started))
    = editor (snd (flushQueuedNativeOperations K host flagged))
    /\ dom (snd (onCompositionEnd K host e2 started))
       = dom (snd (flushQueuedNativeOperations K host flagged))
    /\ forall a, a <> next ->
         In a (emitted flagged
                 (snd (flushQueuedNativeOperations K host flagged))) ->
         In a (emitted started (snd (onCompositionEnd K host e2 started)))).
  { unfold onCompositionEnd. unfold_js. fold flagged.
    destruct (flush_log K host flagged) as (l & Hl & _).
    destruct (flushQueuedNativeOperations K host flagged)
      as [[v|err] w1]; cbn [fst snd editor dom log] in *;
      (split; [reflexivity|]); (split; [reflexivity|]); intros a Ha Hin;
      rewrite (emitted_app flagged w1 l Hl) in Hin.
    - erewrite emitted_app
        by (cbn [log]; rewrite Hl, <- app_assoc; reflexivity).
      apply in_or_app. left. exact Hin.
    - erewrite emitted_app by (rewrite Hl; reflexivity). exact Hin. }
  destruct Hend_editor as (He & Hd & Hlog).
  destruct (@flush_in_step flagged op c cn n eq_refl eq_refl Hcur Hfind
              Hclean Hnode Hfn Htext) as (Hdoc & r & Hin).
  destruct (@flush_of_clean_container_trees flagged c Hcur Hclean)
    as (Ht1 & Ht2).
  rewrite He, Hd. split; [exact Hdoc|]. split.
  { exists r. apply Hlog; [discriminate|exact Hin]. }
  split; [exact Ht1|]. split; [exact Ht2|].
  apply flush_clears_slot.
Qed.

End Untouched.

(** ** These properties on the concrete editor surface *)

Lemma readOnly_handlers_do_nothing_witness :
  perform Example.desktop Example.constants Example.hotkeys Example.host
          (KeyDown (Example.key_event "b" true)) Scenario.read_only
  = (Normal tt, Scenario.read_only).
Proof.
  apply (@readOnly_handlers_do_nothing Example.desktop Example.constants
           Example.hotkeys Example.host
           (KeyDown (Example.key_event "b" true)) Scenario.read_only);
    reflexivity.
Defined.

Lemma composing_swallows_events_witness :
  perform Example.desktop Example.constants Example.hotkeys Example.host
          (Input Example.plain_event) Example.composing
  = (Normal tt, Example.composing).
Proof.
  destruct (@composing_swallows_events Example.desktop Example.constants
              Example.hotkeys Example.host (Input Example.plain_event)
              Example.composing eq_refl) as [H _].
  apply H. reflexivity.
Defined.

Lemma copy_guard_lifecycle_witness :
  perform Example.desktop Example.constants Example.hotkeys Example.host
          (Select Example.plain_event)
          (snd (onCopy Example.plain_event Example.idle))
  = (Normal tt, snd (onCopy Example.plain_event Example.idle))
  /\ isCopying
       (session (snd (animation_frame
                        (snd (onCopy Example.plain_event Example.idle)))))
     = false.
Proof.
  destruct (copy_guard_lifecycle Example.desktop Example.constants
              Example.hotkeys Example.host
              (snd (onCopy Example.plain_event Example.idle)))
    as (H1 & _).
  destruct (copy_guard_lifecycle Example.desktop Example.constants
              Example.hotkeys Example.host Example.idle)
    as (_ & _ & _ & H4).
  split.
  - apply H1; reflexivity.
  - apply (H4 Example.plain_event).
Defined.

Lemma other_handlers_never_throw_witness :
  fst (perform Example.desktop Example.constants Example.hotkeys Example.host
               (Blur (Example.blur_to 9)) Example.unfocused)
  = Normal tt.
Proof.
  apply (@other_handlers_never_throw Example.desktop Example.constants
           Example.hotkeys Example.host (Blur (Example.blur_to 9))
           Example.unfocused).
  reflexivity.
Defined.

Lemma editor_and_dom_untouched_witness :
  editor (snd (perform Example.desktop Example.constants Example.hotkeys
                 Example.host (Paste Example.plain_event) Example.composing))
  = editor Example.composing
  /\ dom (snd (perform Example.desktop Example.constants Example.hotkeys
                 Example.host (CompositionStart Example.plain_event)
                 Example.selected))
     = dom Example.selected
  /\ Dom.activeElement (dom Scenario.focus_inside) = Some 6
  /\ Dom.activeElement
       (dom (snd (perform Scenario.firefox Example.constants Example.hotkeys
                    Example.host (Focus Scenario.focus_on_void)
                    Scenario.focus_inside)))
     = Some 1.
Proof.
  split; [|split; [|split; [reflexivity|]]].
  - apply (editor_and_dom_untouched Example.desktop Example.constants
             Example.hotkeys Example.host (Paste Example.plain_event)
             Example.composing).
    reflexivity.
  - apply (editor_and_dom_untouched Example.desktop Example.constants
             Example.hotkeys Example.host
             (CompositionStart Example.plain_event) Example.selected);
      reflexivity.
  - destruct (editor_and_dom_untouched Scenario.firefox Example.constants
                Example.hotkeys Example.host (Focus Scenario.focus_on_void)
                Scenario.focus_inside) as (_ & _ & _ & H & _).
    destruct (H Scenario.focus_on_void eq_refl) as (Hcalled & Hactive & _).
    apply Hactive; [|reflexivity].
    apply (proj2 Hcalled).
    split; [reflexivity|split; [reflexivity|split; [reflexivity|]]].
    intros Heq. discriminate Heq.
Defined.

Lemma user_action_flag_witness :
  isUserActionPerformed
    (session (snd (perform Example.desktop Example.constants Example.hotkeys
                     Example.host (Click Example.plain_event) Example.idle)))
  = true
  /\ isUserActionPerformed
       (session (snd (perform Example.desktop Example.constants
                        Example.hotkeys Example.host ClearUserActionPerformed
                        Example.composing)))
     = false.
Proof.
  split.
  - destruct (user_action_flag Example.desktop Example.constants
                Example.hotkeys Example.host (Click Example.plain_event)
                Example.idle) as (_ & _ & _ & _ & H).
    apply H; [reflexivity|]. vm_compute. left. reflexivity.
  - destruct (user_action_flag Example.desktop Example.constants
                Example.hotkeys Example.host ClearUserActionPerformed
                Example.composing) as (_ & H & _).
    apply H. reflexivity.
Defined.

Lemma idle_queue_bounded : queue_bounded Example.idle.
Proof. constructor. Defined.

Lemma idle_composing_while_pending : composing_while_pending Example.idle.
Proof. intros H. exfalso. apply H. reflexivity. Defined.

Lemma waiting_callbacks_are_bounded_witness :
  frame_requests
    (perform_all Example.desktop Example.constants Example.hotkeys
                 Example.host
                 [CompositionStart Example.plain_event;
                  CompositionEnd Example.plain_event]
                 Example.idle)
  = [finish_composition 1]
  /\ run_callback (finish_composition 1)
       (perform_all Example.desktop Example.constants Example.hotkeys
                    Example.host
                    [CompositionStart Example.plain_event;
                     CompositionEnd Example.plain_event]
                    Example.idle)
     = (Normal tt,
        composition_finished
          (perform_all Example.desktop Example.constants Example.hotkeys
                       Example.host
                       [CompositionStart Example.plain_event;
                        CompositionEnd Example.plain_event]
                       Example.idle)).
Proof.
  split; [vm_compute; reflexivity|].
  destruct (@waiting_callbacks_are_bounded Example.desktop Example.constants
              Example.hotkeys Example.host
              [CompositionStart Example.plain_event;
               CompositionEnd Example.plain_event]
              Example.idle idle_queue_bounded) as [_ H].
  destruct (H 1%N) as (_ & H1 & _).
  - vm_compute. left. reflexivity.
  - apply H1. vm_compute. reflexivity.
Defined.

Lemma pending_only_while_composing_witness :
  isComposing
    (session (perform_all Example.desktop Example.constants Example.hotkeys
                Example.host Scenario.one_composition Example.idle))
  = false
  /\ nextNativeOperation
       (editor (perform_all Example.desktop Example.constants
                  Example.hotkeys Example.host Scenario.one_composition
                  Example.idle))
     = None.
Proof.
  split; [vm_compute; reflexivity|].
  destruct (@pending_only_while_composing Example.desktop Example.constants
              Example.hotkeys Example.host Scenario.one_composition
              Example.idle idle_queue_bounded idle_composing_while_pending)
    as [_ H].
  - vm_compute. reflexivity.
  - apply H. vm_compute. reflexivity.
Defined.

Lemma compositionCount_counts_starts_witness :
  compositionCount
    (session (perform_all Example.desktop Example.constants Example.hotkeys
                Example.host
                (Scenario.one_composition ++ Scenario.one_composition)
                Example.idle))
  = 2%N.
Proof.
  apply (@compositionCount_counts_starts Example.desktop Example.constants
           Example.hotkeys Example.host
           (Scenario.one_composition ++ Scenario.one_composition)
           Example.idle).
  vm_compute. discriminate.
Defined.


Lemma activeElement_is_recorded_witness :
  activeElement
    (session (snd (onFocus Example.desktop Example.plain_event Example.idle)))
  = Some 1
  /\ onBlur Example.constants Example.host (Example.blur_to 9)
            (snd (onFocus Example.desktop Example.plain_event Example.idle))
     = (Normal tt,
        snd (onFocus Example.desktop Example.plain_event Example.idle)).
Proof.
  destruct (activeElement_is_recorded Example.desktop Example.constants
              Example.hotkeys Example.host Example.idle Example.plain_event)
    as (H1 & _ & _ & H4).
  split.
  - destruct (H1 eq_refl eq_refl) as [H _]. exact H.
  - apply H4; reflexivity.
Defined.

Lemma onCompositionEnd_outcomes_witness :
  fst (onCompositionEnd Example.constants Example.host Example.plain_event
         Example.captured_elsewhere)
  = Throw (Error "YOWIE WOWIE: slate span node mismatch")
  /\ frame_requests
       (snd (onCompositionEnd Example.constants Example.host
               Example.plain_event Example.captured_elsewhere))
     = []
  /\ isComposing
       (session (snd (onCompositionEnd Example.constants Example.host
                        Example.plain_event Example.captured_elsewhere)))
     = true.
Proof.
  assert (Hthrow :
    fst (onCompositionEnd Example.constants Example.host Example.plain_event
           Example.captured_elsewhere)
    = Throw (Error "YOWIE WOWIE: slate span node mismatch"))
    by (vm_compute; reflexivity).
  destruct (onCompositionEnd_outcomes Example.constants Example.host
              Example.captured_elsewhere Example.plain_event)
    as (H1 & _ & _ & H4 & _).
  split; [exact Hthrow|]. split.
  - destruct (H4 _ Hthrow) as [H _]. exact H.
  - exact H1.
Defined.

Lemma uncontained_operation_never_flushes_witness :
  fst (onCompositionStart Example.constants Example.host Example.plain_event
         Scenario.caret_outside) = Normal tt
  /\ exists err,
       fst (onCompositionEnd Example.constants Example.host
              Example.plain_event
              (snd (onCompositionStart Example.constants Example.host
                      Example.plain_event Scenario.caret_outside)))
       = Throw err.
Proof.
  destruct (uncontained_operation_never_flushes Example.constants
              Example.host Scenario.caret_outside Example.plain_event)
    as [_ H2].
  destruct (H2 10 1 (Dom.Element 9 "BUTTON" [] [Dom.Text 10 [111%N; 107%N]]))
    as [Hs Hop]; try (vm_compute; reflexivity).
  split; [exact Hs|].
  destruct (uncontained_operation_never_flushes Example.constants
              Example.host
              (snd (onCompositionStart Example.constants Example.host
                      Example.plain_event Scenario.caret_outside))
              Example.plain_event)
    as [H1 _].
  destruct (H1 _ Hop eq_refl) as [_ H]. exact H.
Defined.


Lemma remove_br_children_partition_witness :
  In (Dom.Comment 24 []) (fst (remove_br_children Scenario.children))
  /\ for_of_childNodes (List.length Scenario.children) 0
                        Scenario.children []
     = remove_br_children Scenario.children.
Proof.
  destruct (remove_br_children_partition Scenario.children)
    as (_ & _ & H & Hloop).
  split.
  - apply H; [|reflexivity]. vm_compute. auto 10.
  - rewrite Hloop. destruct (remove_br_children Scenario.children).
    reflexivity.
Defined.

Lemma idle_container_is_clean :
  container_is_clean Example.constants 2 (dom Example.idle).
Proof.
  intros cn r n Hc Hin Hr. vm_compute in Hc. injection Hc as <-.
  vm_compute in Hin. destruct Hin as [<-|[]].
  vm_compute in Hr. injection Hr as <-. vm_compute. reflexivity.
Defined.

Lemma untouched_composition_changes_nothing_witness :
  getNode "k1"
    (document (value (editor
       (snd (onCompositionEnd Example.constants Example.host
               Example.plain_event
               (snd (onCompositionStart Example.constants Example.host
                       Example.plain_event Example.idle)))))))
  = Some (mkNode "k1" [Example.h; Example.i]).
Proof.
  assert (Hclean := idle_container_is_clean).
  destruct (@untouched_composition_changes_nothing Example.constants
              Example.host Example.idle Example.plain_event
              Example.plain_event 2 (Example.text_run [Example.h; Example.i])
              (mkNode "k1" [Example.h; Example.i])
              eq_refl eq_refl eq_refl eq_refl Hclean eq_refl eq_refl eq_refl)
    as (_ & _ & H & _).
  rewrite H. reflexivity.
Defined.

Lemma continuation_is_called_last_witness :
  exists pre,
    ~ In next pre
    /\ (log (snd (onDragOver Example.desktop Example.host Example.plain_event
                    Example.idle))
        = log Example.idle ++ pre
        \/ (log (snd (onDragOver Example.desktop Example.host Example.plain_event
                        Example.idle))
            = log Example.idle ++ pre ++ [next]
            /\ fst (onDragOver Example.desktop Example.host Example.plain_event
                      Example.idle)
               = Normal tt)).
Proof.
  exact (continuation_is_called_last Example.desktop Example.constants
           Example.hotkeys Example.host (DragOver Example.plain_event)
           Example.idle).
Defined.

Lemma remove_br_children_leaves_adjacent_witness :
  existsb is_br (fst (remove_br_children Scenario.children)) = true.
Proof.
  rewrite (remove_br_children_leaves_adjacent Scenario.children).
  reflexivity.
Defined.
